(** * stash: key codec, retention and restore selection, include filter,
      minimum-size gate

    A shallow embedding of the decision logic of the Go program
    [volcie/stash]:
    - [internal/storage/s3.go]: [buildKey], [parseKey], [Upload];
    - [internal/cleanup]: [selectBackupsForDeletion];
    - [internal/restore]: [parseDate], [selectBackups], [RestoreService];
    - [internal/archive]: [shouldInclude];
    - [internal/backup]: [backupPath] (both revisions).

    Go strings are byte strings and are modelled by [string]; Go [int] and
    [int64] values by [Z]; slices by [list]; the Go map used for grouping by
    a [gmap]; [nil] pointers by [None]. *)

From Stdlib Require Import ZArith Lia Bool List Ascii String Permutation Sorted.
From stdpp Require Import base gmap strings list sorting.

Local Open Scope string_scope.
Local Open Scope Z_scope.

(** Linear arithmetic with division and remainder by constants. *)
Ltac divlia := Z.div_mod_to_equations; lia.

(* ===================================================================== *)
(** ** Package [strings] of the Go standard library *)
(* ===================================================================== *)

Module GoStrings.

Definition len (s : string) : nat := String.length s.

  (** [strings.HasPrefix]: [len(s) >= len(prefix) && s[:len(prefix)] == prefix]. *)
Definition HasPrefix (s prefix : string) : bool :=
    (len prefix <=? len s)%nat && String.eqb (substring 0 (len prefix) s) prefix.

  (** [strings.HasSuffix]:
      [len(s) >= len(suffix) && s[len(s)-len(suffix):] == suffix]. *)
Definition HasSuffix (s suffix : string) : bool :=
    (len suffix <=? len s)%nat
    && String.eqb (substring (len s - len suffix) (len suffix) s) suffix.

  (** [strings.TrimPrefix]: [s[len(prefix):]] when [s] has the prefix. *)
Definition TrimPrefix (s prefix : string) : string :=
    if HasPrefix s prefix
    then substring (len prefix) (len s - len prefix) s
    else s.

  (** [strings.TrimSuffix]: [s[:len(s)-len(suffix)]] when [s] has the suffix. *)
Definition TrimSuffix (s suffix : string) : string :=
    if HasSuffix s suffix
    then substring 0 (len s - len suffix) s
    else s.

  (** [strings.Split(s, sep)] for a separator of one byte (the program only
      splits at ["/"]): the pieces between the separators, in order; a string
      without separator is its own single piece. *)
Fixpoint Split (s : string) (sep : ascii) : list string :=
    match s with
    | EmptyString => [EmptyString]
    | String c s' =>
        if Ascii.eqb c sep then EmptyString :: Split s' sep
        else match Split s' sep with
             | [] => [String c EmptyString]
             | p :: ps => String c p :: ps
             end
    end.

  (** [strings.Join(elems, sep)]. *)
Definition Join (elems : list string) (sep : string) : string :=
    String.concat sep elems.

  (** [strings.Trim(s, cutset)] for a cutset of one byte: [s] without its
      leading and trailing bytes [c]. *)
Fixpoint TrimLeft (s : string) (c : ascii) : string :=
    match s with
    | String a s' => if Ascii.eqb a c then TrimLeft s' c else s
    | EmptyString => s
    end.

Definition Trim (s : string) (c : ascii) : string :=
    String.rev (TrimLeft (String.rev (TrimLeft s c)) c).

  (** [c] does not occur in [s]. *)
Fixpoint lacks (c : ascii) (s : string) : bool :=
    match s with
    | EmptyString => true
    | String a s' => negb (Ascii.eqb a c) && lacks c s'
    end.

End GoStrings.

(* ===================================================================== *)
(** ** Package [time] of the Go standard library *)
(* ===================================================================== *)

Module GoTime.

  (** A [time.Time] in UTC, held as the calendar fields given to Go's
      [time.Date].  Go normalises out-of-range fields; normalising changes
      neither the instant [unixSec] nor any comparison.  The only value the
      program builds with an out-of-range field is the cut-off date of the
      retention selector ([AddDate]), which is only compared, never
      formatted.  Sub-second precision is left out: every timestamp of the
      program has second resolution. *)
Record Time : Type := mkTime {
    year : Z; month : Z; day : Z; hour : Z; minute : Z; second : Z }.

Definition isLeap (y : Z) : bool :=
    (y mod 4 =? 0) && (negb (y mod 100 =? 0) || (y mod 400 =? 0)).

  (** [daysIn(m, year)] *)
Definition daysIn (m y : Z) : Z :=
    if m =? 2 then (if isLeap y then 29 else 28)
    else if (m =? 4) || (m =? 6) || (m =? 9) || (m =? 11) then 30 else 31.

  (** Days of a common year before month [m] (1..12). *)
Definition daysBefore (m : Z) : Z :=
    nth (Z.to_nat (m - 1)) [0; 31; 59; 90; 120; 151; 181; 212; 243; 273; 304; 334] 0.

  (** Days from 0001-01-01 to the first of January of year [y]. *)
Definition daysBeforeYear (y : Z) : Z :=
    365 * (y - 1) + (y - 1) / 4 - (y - 1) / 100 + (y - 1) / 400.

  (** The instant of a time, in seconds since 1970-01-01T00:00:00Z, computed
      as [time.Date] does: the month is normalised into the year, and days,
      hours, minutes and seconds count linearly. *)
Definition unixSec (t : Time) : Z :=
    let y := year t + (month t - 1) / 12 in
    let m := (month t - 1) mod 12 + 1 in
    let d := daysBeforeYear y - 719162 + daysBefore m
             + (if isLeap y && (3 <=? m) then 1 else 0) + (day t - 1) in
    d * 86400 + hour t * 3600 + minute t * 60 + second t.

  (** [t.After(u)], [t.Before(u)], [t.AddDate(years, months, days)] *)
Definition After (t u : Time) : bool := unixSec u <? unixSec t.
Definition Before (t u : Time) : bool := unixSec t <? unixSec u.
Definition AddDate (t : Time) (years months days : Z) : Time :=
    mkTime (year t + years) (month t + months) (day t + days)
           (hour t) (minute t) (second t).

  (** *** Decimal fields *)

Definition isDigit (c : ascii) : bool :=
    (48 <=? N_of_ascii c)%N && (N_of_ascii c <=? 57)%N.
Definition digitVal (c : ascii) : Z := Z.of_N (N_of_ascii c) - 48.
Definition digitChar (d : Z) : ascii := ascii_of_N (Z.to_N (48 + d)).

  (** The decimal digits of [u >= 0], most significant first. *)
Fixpoint decimal (fuel : nat) (u : Z) (acc : string) : string :=
    match fuel with
    | O => acc
    | S fuel' =>
        let acc' := String (digitChar (u mod 10)) acc in
        if u / 10 =? 0 then acc' else decimal fuel' (u / 10) acc'
    end.

Fixpoint zeros (n : nat) : string :=
    match n with O => "" | S n' => String "0" (zeros n') end.

  (** [appendInt(b, x, width)]: [x] in decimal, zero-padded to [width]. *)
Definition appendInt (x : Z) (width : nat) : string :=
    let u := Z.abs x in
    let sign := if x <? 0 then "-" else "" in
    if (Nat.eqb width 2 && (u <? 100))%bool then
      sign +:+ String (digitChar (u / 10)) (String (digitChar (u mod 10)) "")
    else if (Nat.eqb width 4 && (u <? 10000))%bool then
      sign +:+ String (digitChar (u / 1000))
                (String (digitChar (u / 100 mod 10))
                  (String (digitChar (u / 10 mod 10))
                    (String (digitChar (u mod 10)) "")))
    else
      let ds := decimal 20 u "" in
      sign +:+ zeros (width - String.length ds) +:+ ds.

  (** [getnum(s, fixed)]: one or two leading digits; exactly two when
      [fixed]. *)
Definition getnum (s : string) (fixed : bool) : option (Z * string) :=
    match s with
    | String a r =>
        if isDigit a then
          match r with
          | String b r' =>
              if isDigit b then Some (digitVal a * 10 + digitVal b, r')
              else if fixed then None else Some (digitVal a, r)
          | EmptyString => if fixed then None else Some (digitVal a, r)
          end
        else None
    | EmptyString => None
    end.

  (** The [stdLongYear] case of [Parse]: [atoi] of the first four bytes,
      which must all be digits. *)
Definition getyear (s : string) : option (Z * string) :=
    match s with
    | String a (String b (String c (String d r))) =>
        if isDigit a && isDigit b && isDigit c && isDigit d
        then Some (((digitVal a * 10 + digitVal b) * 10 + digitVal c) * 10
                   + digitVal d, r)
        else None
    | _ => None
    end.

  (** The layout elements that the two layouts of the program are made of
      ([nextStdChunk] cuts ["20060102-150405"] into year, month, day, the
      literal ["-"], hour, minute, second). *)
Inductive Chunk : Type :=
  | stdLongYear | stdZeroMonth | stdZeroDay
  | stdHour | stdZeroMinute | stdZeroSecond
  | literal (s : string).

Definition Layout := list Chunk.

  (** ["20060102-150405"] *)
Definition layoutTimestamp : Layout :=
    [stdLongYear; stdZeroMonth; stdZeroDay; literal "-";
     stdHour; stdZeroMinute; stdZeroSecond].

  (** ["20060102"] *)
Definition layoutDate : Layout := [stdLongYear; stdZeroMonth; stdZeroDay].

  (** One step of the loop of [Parse]: read the value of one layout element,
      with its range check. *)
Definition parseChunk (c : Chunk) (value : string) (t : Time)
    : option (Time * string) :=
    match c with
    | literal p =>
        if GoStrings.HasPrefix value p
        then Some (t, GoStrings.TrimPrefix value p) else None
    | stdLongYear =>
        match getyear value with
        | Some (y, rest) =>
            Some (mkTime y (month t) (day t) (hour t) (minute t) (second t), rest)
        | None => None
        end
    | stdZeroMonth =>
        match getnum value true with
        | Some (m, rest) =>
            if (m <=? 0) || (12 <? m) then None
            else Some (mkTime (year t) m (day t) (hour t) (minute t) (second t), rest)
        | None => None
        end
    | stdZeroDay =>
        match getnum value true with
        | Some (d, rest) =>
            Some (mkTime (year t) (month t) d (hour t) (minute t) (second t), rest)
        | None => None
        end
    | stdHour =>
        match getnum value false with
        | Some (h, rest) =>
            if (h <? 0) || (24 <=? h) then None
            else Some (mkTime (year t) (month t) (day t) h (minute t) (second t), rest)
        | None => None
        end
    | stdZeroMinute =>
        match getnum value true with
        | Some (m, rest) =>
            if (m <? 0) || (60 <=? m) then None
            else Some (mkTime (year t) (month t) (day t) (hour t) m (second t), rest)
        | None => None
        end
    | stdZeroSecond =>
        match getnum value true with
        | Some (s, rest) =>
            if (s <? 0) || (60 <=? s) then None
            else Some (mkTime (year t) (month t) (day t) (hour t) (minute t) s, rest)
        | None => None
        end
    end.

Fixpoint parseChunks (l : Layout) (value : string) (t : Time)
    : option (Time * string) :=
    match l with
    | [] => Some (t, value)
    | c :: l' =>
        match parseChunk c value t with
        | Some (t', rest) => parseChunks l' rest t'
        | None => None
        end
    end.

  (** [time.Parse(layout, value)] for a layout made of the elements above;
      [None] stands for a returned error.  Fields missing from the layout
      default to January 1, 00:00:00; text left over is an error, and so is
      a day that the month does not have.  (Go also accepts a fractional
      second after the seconds field; both callers require [len(value) = 15],
      which leaves no byte for it.) *)
Definition Parse (l : Layout) (value : string) : option Time :=
    match parseChunks l value (mkTime 0 1 1 0 0 0) with
    | Some (t, rest) =>
        if negb (String.eqb rest "") then None
        else if (day t <? 1) || (daysIn (month t) (year t) <? day t) then None
        else Some t
    | None => None
    end.

Definition formatChunk (c : Chunk) (t : Time) : string :=
    match c with
    | literal p => p
    | stdLongYear => appendInt (year t) 4
    | stdZeroMonth => appendInt (month t) 2
    | stdZeroDay => appendInt (day t) 2
    | stdHour => appendInt (hour t) 2
    | stdZeroMinute => appendInt (minute t) 2
    | stdZeroSecond => appendInt (second t) 2
    end.

  (** [t.Format(layout)] *)
Fixpoint Format (t : Time) (l : Layout) : string :=
    match l with
    | [] => ""
    | c :: l' => formatChunk c t +:+ Format t l'
    end.

  (** A calendar time that the 15-byte canonical form can denote. *)
Definition validTime (t : Time) : Prop :=
    0 <= year t <= 9999 /\ 1 <= month t <= 12
    /\ 1 <= day t <= daysIn (month t) (year t)
    /\ 0 <= hour t < 24 /\ 0 <= minute t < 60 /\ 0 <= second t < 60.

  (** A calendar date: a valid time at midnight. *)
Definition validDate (t : Time) : Prop :=
    validTime t /\ hour t = 0 /\ minute t = 0 /\ second t = 0.

End GoTime.

(* ===================================================================== *)
(** ** Run-time panics *)
(* ===================================================================== *)

(** A Go expression either panics (index or slice bounds out of range) or
    yields a value. *)
Inductive run (A : Type) : Type :=
| Panic : run A
| Return : A -> run A.
Arguments Panic {A}.
Arguments Return {A} _.

Definition bind {A B : Type} (m : run A) (k : A -> run B) : run B :=
  match m with
  | Panic => Panic
  | Return a => k a
  end.

Notation "'let*' x ':=' m 'in' k" := (bind m (fun x => k))
  (at level 10, x name, m at level 100, k at level 200).

(** [l[i]] *)
Definition index {A : Type} (l : list A) (i : Z) : run A :=
  if i <? 0 then Panic
  else match l !! Z.to_nat i with
       | Some x => Return x
       | None => Panic
       end.

(** [l[lo:hi]] *)
Definition slice {A : Type} (l : list A) (lo hi : Z) : run (list A) :=
  if (0 <=? lo) && (lo <=? hi) && (hi <=? Z.of_nat (length l))
  then Return (drop (Z.to_nat lo) (take (Z.to_nat hi) l))
  else Panic.

(** [s[i]] on a string *)
Definition byteIndex (s : string) (i : Z) : run ascii :=
  if i <? 0 then Panic
  else match String.get (Z.to_nat i) s with
       | Some c => Return c
       | None => Panic
       end.

(** [m[key] = append(m[key], x)] on a map of slices; a missing key reads as
    the [nil] slice. *)
Definition appendAt {A : Type} (m : gmap string (list A)) (key : string) (x : A)
  : gmap string (list A) :=
  <[key := (default [] (m !! key) ++ [x])%list]> m.

(** A loop whose body may panic. *)
Fixpoint foldRun {A B : Type} (body : B -> A -> run B) (acc : B) (l : list A)
  : run B :=
  match l with
  | [] => Return acc
  | x :: l' => let* acc' := body acc x in foldRun body acc' l'
  end.

(* ===================================================================== *)
(** ** [internal/storage]: the key codec *)
(* ===================================================================== *)

Module Storage.
Import GoStrings GoTime.

(** [type BackupInfo struct] *)
Record BackupInfo : Type := mkBackupInfo {
  Service : string;
  Path : string;
  Date : Time;
  Key : string;
  Size : Z;
  ETag : string }.

(** [type S3Client struct]: the fields the codec reads. *)
Record S3Client : Type := mkS3Client {
  bucket : string;
  prefix : string }.

(** [func (s *S3Client) buildKey(service, pathName, timestamp string) string] *)
Definition buildKey (s : S3Client) (service pathName timestamp : string) : string :=
  let parts := [prefix s; service; pathName; timestamp +:+ ".tar.gz"] in
  Join parts "/".

(** [func (s *S3Client) parseKey(key string) *BackupInfo]; [Return None] is
    the [nil] result. *)
Definition parseKey (s : S3Client) (key : string) : run (option BackupInfo) :=
  if negb (HasPrefix key (prefix s)) then Return None
  else
    let relativePath := TrimPrefix key (prefix s +:+ "/") in
    let parts := Split relativePath "/" in
    let n := Z.of_nat (length parts) in
    if n <? 3 then Return None
    else
      let* service := index parts 0 in
      let* middle := slice parts 1 (n - 1) in
      let pathName := Join middle "/" in
      let* filename := index parts (n - 1) in
      if negb (HasSuffix filename ".tar.gz") then Return None
      else
        let timestamp := TrimSuffix filename ".tar.gz" in
        if negb (Nat.eqb (len timestamp) 15) then Return None
        else
          let* sep := byteIndex timestamp 8 in
          if negb (Ascii.eqb sep "-") then Return None
          else
            match Parse layoutTimestamp timestamp with
            | None => Return None
            | Some date =>
                Return (Some {| Service := service; Path := pathName;
                                Date := date; Key := key;
                                Size := 0; ETag := "" |})
            end.

(** An object as [ListObjectsV2] reports it. *)
Record Object : Type := mkObject {
  objKey : string;
  objSize : option Z;
  objETag : string }.

(** [func (s *S3Client) List(ctx, service)], given the objects that the
    store lists under the prefix, all pages together: the keys that
    [parseKey] decodes become records, with the size and the ETag of the
    object; the others are skipped. *)
Definition List (s : S3Client) (contents : list Object) : run (list BackupInfo) :=
  foldRun
    (fun (backups : list BackupInfo) (obj : Object) =>
       let* backup := parseKey s (objKey obj) in
       match backup with
       | None => Return backups
       | Some backup =>
           Return (backups
                   ++ [{| Service := Service backup; Path := Path backup;
                          Date := Date backup; Key := Key backup;
                          Size := default (Size backup) (objSize obj);
                          ETag := Trim (objETag obj) "034" |}])%list
       end)
    [] contents.

(** The trailing filename of a key: what follows its last ["/"]. *)
Definition trailingFilename (key : string) : string :=
  List.last (Split key "/") "".

(** A filename that is exactly a canonical timestamp followed by the
    archive extension. *)
Definition canonicalFilename (f : string) : Prop :=
  exists t, validTime t /\ f = Format t layoutTimestamp +:+ ".tar.gz".

End Storage.

(* ===================================================================== *)
(** ** What Go leaves open: [sort.Slice] and the order of [range] on a map *)
(* ===================================================================== *)

(** A strict weak ordering, as [sort.Slice] requires of its [less]. *)
Definition strictWeak {A : Type} (less : A -> A -> bool) : Prop :=
  (forall a b, less a b = true -> less b a = false)
  /\ (forall a b c, less a b = false -> less b c = false -> less a c = false).

(** [sort.Slice] is not stable and the iteration order of a map is
    unspecified.  The program is modelled against any implementation that
    keeps the documented contract: sorting permutes its input and leaves no
    pair out of order; [range] visits every entry once, in some order. *)
Class GoRuntime : Type := {
  sortSlice : forall {A : Type}, (A -> A -> bool) -> list A -> list A;
  sortSlice_perm :
    forall (A : Type) (less : A -> A -> bool) (l : list A),
      Permutation (sortSlice less l) l;
  sortSlice_sorted :
    forall (A : Type) (less : A -> A -> bool) (l : list A),
      strictWeak less ->
      StronglySorted (fun a b => less b a = false) (sortSlice less l);
  rangeOrder : forall {V : Type}, list (string * V) -> list (string * V);
  rangeOrder_perm :
    forall (V : Type) (l : list (string * V)), Permutation (rangeOrder l) l }.

(** One implementation, used to run the model on concrete inputs:
    insertion sort, and the entries in the order the map lists them. *)
Fixpoint insertSorted {A : Type} (less : A -> A -> bool) (x : A) (l : list A)
  : list A :=
  match l with
  | [] => [x]
  | y :: l' => if less y x then y :: insertSorted less x l' else x :: l
  end.

Fixpoint insertionSort {A : Type} (less : A -> A -> bool) (l : list A) : list A :=
  match l with
  | [] => []
  | x :: l' => insertSorted less x (insertionSort less l')
  end.

Definition referenceRuntime : GoRuntime.
Proof.
  refine {| sortSlice := @insertionSort; rangeOrder := fun V l => l |}.
  - intros A less l. induction l as [|x l IH]; simpl; [constructor|].
    transitivity (x :: insertionSort less l); [|now constructor].
    generalize (insertionSort less l) as s. clear. intros s.
    induction s as [|y s IH]; simpl; [reflexivity|].
    destruct (less y x); [|reflexivity].
    rewrite IH. apply perm_swap.
  - intros A less l [Hasym Htrans].
    induction l as [|x l IH]; simpl; [constructor|].
    revert IH. generalize (insertionSort less l) as s. clear l. intros s Hs.
    induction Hs as [|y s Hs IH Hy]; simpl; [repeat constructor|].
    destruct (less y x) eqn:E.
    + constructor; [exact IH|].
      assert (forall z, In z (insertSorted less x s) -> z = x \/ In z s) as Hin.
      { clear. induction s as [|w s IHs]; simpl; intros z Hz.
        - destruct Hz as [->|[]]. now left.
        - destruct (less w x); simpl in Hz.
          + destruct Hz as [->|Hz]; [right; now left|].
            destruct (IHs z Hz) as [->|Hz']; [now left | right; now right].
          + destruct Hz as [->|[->|Hz]]; [now left | right; now left | right; now right]. }
      apply List.Forall_forall. intros z Hz. destruct (Hin z Hz) as [->|Hz'].
      * now apply Hasym.
      * rewrite List.Forall_forall in Hy. now apply Hy.
    + constructor; [now constructor|]. constructor; [exact E|].
      apply List.Forall_forall. intros z Hz. rewrite List.Forall_forall in Hy.
      apply (Htrans z y x); [now apply Hy | exact E].
  - intros V l. reflexivity.
Defined.

(* ===================================================================== *)
(** ** [internal/cleanup]: the retention selector *)
(* ===================================================================== *)

Module Cleanup.
Import GoStrings GoTime Storage.

Section WithRuntime.
Context `{GoRuntime}.

(** The grouping loop:
    [key := fmt.Sprintf("%s/%s", backup.Service, backup.Path)];
    [pathGroups[key] = append(pathGroups[key], backup)]. *)
Definition groupKey (backup : BackupInfo) : string :=
  Service backup +:+ "/" +:+ Path backup.

Definition addToGroup (pathGroups : gmap string (list BackupInfo))
  (backup : BackupInfo) : gmap string (list BackupInfo) :=
  let key := groupKey backup in
  appendAt pathGroups key backup.

(** The body of the loop over [pathGroups]: sort the group newest first,
    keep the first [keepLatest] records out of the candidates, and append the
    candidates older than the cut-off date to [toDelete]. *)
Definition markGroup (cutoffDate : Time) (keepLatest : Z)
  (toDelete : list BackupInfo) (entry : string * list BackupInfo)
  : list BackupInfo :=
  let pathBackups :=
    sortSlice (fun a b => After (Date a) (Date b)) (snd entry) in
  let candidates :=
    if (0 <? keepLatest) && (keepLatest <? Z.of_nat (length pathBackups))
    then drop (Z.to_nat keepLatest) pathBackups
    else pathBackups in
  (toDelete
   ++ List.filter (fun backup => Before (Date backup) cutoffDate) candidates)%list.

(** [func (s *Service) selectBackupsForDeletion(backups, olderThanDays,
    keepLatest)], with the reading of the clock, [time.Now()], made an
    argument. *)
Definition selectBackupsForDeletion (now : Time) (backups : list BackupInfo)
  (olderThanDays keepLatest : Z) : list BackupInfo :=
  if Nat.eqb (length backups) 0 then []
  else
    let cutoffDate := AddDate now 0 0 (- olderThanDays) in
    let pathGroups := foldl addToGroup ∅ backups in
    let toDelete :=
      foldl (markGroup cutoffDate keepLatest) []
        (rangeOrder (map_to_list pathGroups)) in
    sortSlice (fun a b => Before (Date a) (Date b)) toDelete.

End WithRuntime.

(** The records of one (service, path). *)
Definition inGroup (service path : string) (b : BackupInfo) : bool :=
  String.eqb (Service b) service && String.eqb (Path b) path.

(** Records as [parseKey] decodes them: the service holds no ["/"]. *)
Definition decoded (backups : list BackupInfo) : Prop :=
  Forall (fun b => lacks "/" (Service b) = true) backups.

(** The records grouped under one key of [pathGroups]. *)
Definition keyIs (k : string) (b : BackupInfo) : bool :=
  String.eqb (groupKey b) k.

(** A record strictly older than [now] minus [olderThanDays] days. *)
Definition expired (now : Time) (olderThanDays : Z) (b : BackupInfo) : bool :=
  unixSec (Date b) <? unixSec now - 86400 * olderThanDays.

(** What is left in the store once [CleanupBackups] has deleted the keys of
    the selected records ([DeleteMultiple]). *)
Definition afterDeletion (backups deleted : list BackupInfo) : list BackupInfo :=
  List.filter
    (fun b => negb (existsb (String.eqb (Key b)) (map Key deleted))) backups.

End Cleanup.

(* ===================================================================== *)
(** ** [internal/restore]: the restore selector *)
(* ===================================================================== *)

(** [type RestoreOptions struct] *)
Module RestoreOptions.
Record t : Type := mk {
  ServiceName : string;
  FromS3 : bool;
  FromLocal : string;
  Date : string;
  Latest : bool;
  DryRun : bool;
  Force : bool;
  DestPath : string }.
End RestoreOptions.

Module Restore.
Import GoStrings GoTime Storage.

(** The errors and warnings of the package. *)
Inductive error : Type :=
| errInvalidDate (dateStr : string)
    (* "invalid date format: expected YYYYMMDD or YYYYMMDD-HHMMSS, got %s" *)
| errServiceNotFound (service : string)
| errListFailed
| errNoBackupsFound (service : string)
| errNoMatch.  (* "no backups match the specified criteria" *)

Inductive logEntry : Type :=
| warnInvalidDate (dateStr : string).
    (* "Invalid date format %s, ignoring date filter" *)

Inductive result (A : Type) : Type :=
| Ok : A -> result A
| Err : error -> result A.
Arguments Ok {A} _.
Arguments Err {A} _.

(** The first attempt of [parseDate]: the full timestamp layout, tried when
    [len(dateStr) == 15 && dateStr[8] == '-']. *)
Definition tryTimestamp (dateStr : string) : run (option Time) :=
  if Nat.eqb (len dateStr) 15 then
    let* c := byteIndex dateStr 8 in
    if Ascii.eqb c "-" then Return (Parse layoutTimestamp dateStr)
    else Return None
  else Return None.

(** The second attempt: the date-only layout, tried when
    [len(dateStr) == 8]. *)
Definition tryDate (dateStr : string) : option Time :=
  if Nat.eqb (len dateStr) 8 then Parse layoutDate dateStr else None.

(** [func (s *Service) parseDate(dateStr string) (time.Time, bool, error)] *)
Definition parseDate (dateStr : string) : run (result (Time * bool)) :=
  let* exact := tryTimestamp dateStr in
  match exact with
  | Some t => Return (Ok (t, true))
  | None =>
      match tryDate dateStr with
      | Some t => Return (Ok (t, false))
      | None => Return (Err (errInvalidDate dateStr))
      end
  end.

(** The test [matches] of the filter loop. *)
Definition matchesDate (targetDate : Time) (isExactTime : bool)
  (backup : BackupInfo) : bool :=
  if isExactTime
  then String.eqb (Format (Date backup) layoutTimestamp)
                  (Format targetDate layoutTimestamp)
  else String.eqb (Format (Date backup) layoutDate)
                  (Format targetDate layoutDate).

(** The first part of [selectBackups]: filter by date if a date is given.
    An unparseable date is logged and ignored. *)
Definition filterByDate (backups : list BackupInfo) (opts : RestoreOptions.t)
  : run (list logEntry * list BackupInfo) :=
  if negb (String.eqb (RestoreOptions.Date opts) "") then
    let* parsed := parseDate (RestoreOptions.Date opts) in
    match parsed with
    | Err _ => Return ([warnInvalidDate (RestoreOptions.Date opts)], backups)
    | Ok (targetDate, isExactTime) =>
        Return ([], List.filter (matchesDate targetDate isExactTime) backups)
    end
  else Return ([], backups).

Section WithRuntime.
Context `{GoRuntime}.

(** The body of the loop over [pathGroups]: the newest record of the path,
    or every record of the path. *)
Definition pickFromGroup (opts : RestoreOptions.t) (selected : list BackupInfo)
  (entry : string * list BackupInfo) : run (list BackupInfo) :=
  let pathBackups := sortSlice (fun a b => After (Date a) (Date b)) (snd entry) in
  if RestoreOptions.Latest opts || String.eqb (RestoreOptions.Date opts) "" then
    let* latest := index pathBackups 0 in
    Return (selected ++ [latest])%list
  else Return (selected ++ pathBackups)%list.

(** [func (s *Service) selectBackups(backups, opts) []*storage.BackupInfo],
    together with what it logs. *)
Definition selectBackups (backups : list BackupInfo) (opts : RestoreOptions.t)
  : run (list logEntry * list BackupInfo) :=
  let* filtered := filterByDate backups opts in
  let log := fst filtered in
  let backups := snd filtered in
  if Nat.eqb (length backups) 0 then Return (log, [])
  else
    let pathGroups := foldl (fun m backup => appendAt m (Path backup) backup) ∅ backups in
    let* selected :=
      foldRun (pickFromGroup opts) [] (rangeOrder (map_to_list pathGroups)) in
    Return (log, selected).

(** How [RestoreService] goes on after the selection. *)
Inductive outcome : Type :=
| FromLocalFile                       (* [restoreFromLocal] *)
| Failed (e : error)                  (* [return nil, err] *)
| Restoring (selected : list BackupInfo).
    (* the loop that restores each selected record *)

(** [func (s *Service) RestoreService(ctx, opts)] up to the selection;
    [configured] tells whether the service is in the configuration and
    [listed] is the outcome of [s3Client.List]. *)
Definition RestoreService (configured : bool) (listed : result (list BackupInfo))
  (opts : RestoreOptions.t) : run (list logEntry * outcome) :=
  if negb configured
  then Return ([], Failed (errServiceNotFound (RestoreOptions.ServiceName opts)))
  else if negb (String.eqb (RestoreOptions.FromLocal opts) "")
  then Return ([], FromLocalFile)
  else
    match listed with
    | Err _ => Return ([], Failed errListFailed)
    | Ok backups =>
        if Nat.eqb (length backups) 0
        then Return ([], Failed (errNoBackupsFound (RestoreOptions.ServiceName opts)))
        else
          let* sel := selectBackups backups opts in
          if Nat.eqb (length (snd sel)) 0
          then Return (fst sel, Failed errNoMatch)
          else Return (fst sel, Restoring (snd sel))
    end.

End WithRuntime.

(** The two accepted forms of a date token. *)
Definition calendarDate8 (token : string) : Prop :=
  exists t, validDate t /\ token = Format t layoutDate.

Definition canonicalTimestamp15 (token : string) : Prop :=
  exists t, validTime t /\ token = Format t layoutTimestamp.

(** The records of one path. *)
Definition onPath (path : string) (b : BackupInfo) : bool :=
  String.eqb (Path b) path.

(** Options of a restore from the object store. *)
Definition options (date : string) (latest : bool) : RestoreOptions.t :=
  RestoreOptions.mk "web" true "" date latest false false "".

End Restore.

(* ===================================================================== *)
(** ** Package [path/filepath] of the Go standard library, on Unix *)
(* ===================================================================== *)

Module FilePath.
Import GoStrings.

(** [filepath.FromSlash]: the separator is ["/"], nothing to replace. *)
Definition FromSlash (path : string) : string := path.

(** One step of [filepath.Clean] on the elements of a path, the elements
    cleaned so far held innermost first: empty and ["."] elements vanish; a
    [".."] removes the element before it, is dropped at the root, and is
    kept at the start of a relative path. *)
Definition cleanStep (rooted : bool) (out : list string) (elem : string)
  : list string :=
  if String.eqb elem "" || String.eqb elem "." then out
  else if String.eqb elem ".." then
    match out with
    | top :: out' => if String.eqb top ".." then elem :: out else out'
    | [] => if rooted then out else [elem]
    end
  else elem :: out.

(** [filepath.Clean] *)
Definition Clean (path : string) : string :=
  let rooted := HasPrefix path "/" in
  let out := rev (foldl (cleanStep rooted) [] (Split path "/")) in
  let cleaned := (if rooted then "/" else "") +:+ Join out "/" in
  if String.eqb cleaned "" then "." else cleaned.

(** The elements that the loop of [filepath.Rel] walks through: the pieces
    between separators; the root ["/"] is the single empty element. *)
Definition elements (path : string) : list string :=
  if String.eqb path "" then []
  else if String.eqb path "/" then [""]
  else Split path "/".

(** The loop of [filepath.Rel]: skip the leading elements that [base] and
    [targ] share.  The third component tells whether the loop stopped at
    two elements that differ. *)
Fixpoint skipShared (base targ : list string)
  : list string * list string * bool :=
  match base, targ with
  | b :: base', t :: targ' =>
      if String.eqb t b then skipShared base' targ' else (base, targ, true)
  | _, _ => (base, targ, false)
  end.

(** [filepath.Rel(basepath, targpath)]; [None] stands for the error. *)
Definition Rel (basepath targpath : string) : option string :=
  let base := Clean basepath in
  let targ := Clean targpath in
  if String.eqb targ base then Some "."
  else
    let base := if String.eqb base "." then "" else base in
    if negb (Bool.eqb (HasPrefix base "/") (HasPrefix targ "/")) then None
    else
      let '(baseLeft, targLeft, differ) :=
        skipShared (elements base) (elements targ) in
      if differ && String.eqb (hd "" baseLeft) ".." then None
      else
        match baseLeft with
        | [] => Some (Join targLeft "/")
        | _ :: _ =>
            Some (Join (List.map (fun _ => "..") baseLeft ++ targLeft)%list "/")
        end.

End FilePath.

(* ===================================================================== *)
(** ** [internal/archive]: the include filter *)
(* ===================================================================== *)

Module Archive.
Import GoStrings FilePath.

(** The loop of [shouldInclude] over the include folders. *)
Fixpoint matchesAny (relPath : string) (includeFolders : list string) : bool :=
  match includeFolders with
  | [] => false
  | includeFolder :: rest =>
      let includeFolder := FromSlash includeFolder in
      if HasPrefix relPath includeFolder then true
      else if HasPrefix includeFolder relPath then true
      else matchesAny relPath rest
  end.

(** [func (a *Archiver) shouldInclude(path, basePath string,
    includeFolders []string) bool] (the same in both revisions of the
    archiver). *)
Definition shouldInclude (path basePath : string) (includeFolders : list string)
  : bool :=
  match Rel basePath path with
  | None => false
  | Some relPath =>
      if String.eqb relPath "." then true
      else matchesAny relPath includeFolders
  end.

(** [a] is a prefix of [b]. *)
Definition isPrefixOf (a b : string) : Prop := exists rest, b = a +:+ rest.

End Archive.

(* ===================================================================== *)
(** ** [internal/backup]: the backup of one path *)
(* ===================================================================== *)

(** [type BackupResult struct] (the duration is left out) *)
Module BackupResult.
Record t : Type := mk {
  Service : string;
  Path : string;
  BackupInfo : option Storage.BackupInfo;
  ArchiveSize : Z;
  Error : option string }.
End BackupResult.

Module Backup.
Import GoStrings GoTime Storage.

(** The [backup] section of the configuration. *)
Record BackupConfig : Type := mkBackupConfig {
  Compression : bool;
  PreserveACLs : bool;
  TempDir : string;
  MinSize : Z }.

(** What the file system, the archiver and the object store answer during
    one call of [backupPath].  [seek n] and [putObject n] answer the call
    number [n] of its kind; [putObject] answers with the ETag.  The HEAD
    request that follows a successful upload is taken to succeed. *)
Record World : Type := mkWorld {
  statSource : bool;
  mkdirAll : bool;
  createTemp : bool;
  createArchive : bool;
  tempFileSize : option Z;
  seek : nat -> bool;
  clock : Time;
  putObject : nat -> option string;
  contentLength : option Z }.

(** The calls that [backupPath] makes, in order. *)
Inductive event : Type :=
| evStat (path : string)
| evMkdirAll (dir : string)
| evCreateTemp (dir : string)
| evCountFiles (source : string)
| evCreateArchive (compression preserveACLs : bool) (source : string)
| evStatTempFile
| evSeek
| evPutObject (key : string)
| evHeadObject (key : string)
| evCloseTempFile
| evRemoveTempFile.

(** The state threaded through a call: the calls made so far, how many of
    them were seeks and uploads, and [result.ArchiveSize]. *)
Record State : Type := mkState {
  trace : list event;
  seeks : nat;
  puts : nat;
  archiveSize : Z }.

(** A step either fails with the message of [result.Error] or yields a
    value; it always leaves a state. *)
Definition step (A : Type) : Type := State -> (A + string) * State.

Definition pure {A : Type} (a : A) : step A := fun s => (inl a, s).
Definition failWith {A : Type} (e : string) : step A := fun s => (inr e, s).
Definition andThen {A B : Type} (m : step A) (k : A -> step B) : step B :=
  fun s => match m s with
           | (inl a, s') => k a s'
           | (inr e, s') => (inr e, s')
           end.
Definition emit (e : event) : step unit :=
  fun s => (inl tt, mkState (trace s ++ [e])%list (seeks s) (puts s) (archiveSize s)).

Notation "m ';;' k" := (andThen m (fun _ => k))
  (at level 100, k at level 200, right associativity).

(** A call that succeeds or fails as the world says. *)
Definition call (e : event) (ok : bool) (err : string) : step unit :=
  emit e ;; if ok then pure tt else failWith err.

(** [tempFile.Seek(0, 0)] *)
Definition seekStart (w : World) (err : string) : step unit :=
  fun s =>
    let s' := mkState (trace s ++ [evSeek])%list (S (seeks s)) (puts s)
                (archiveSize s) in
    if seek w (seeks s) then (inl tt, s') else (inr err, s').

(** [func (s *S3Client) Upload(ctx, reader, service, pathName)]: the key is
    built from the clock; the archive is put under it. *)
Definition Upload (c : S3Client) (w : World) (service pathName : string)
  : step BackupInfo :=
  fun s =>
    let timestamp := Format (clock w) layoutTimestamp in
    let key := buildKey c service pathName timestamp in
    let s1 := mkState (trace s ++ [evPutObject key])%list (seeks s) (S (puts s))
                (archiveSize s) in
    match putObject w (puts s) with
    | None => (inr "failed to upload to S3", s1)
    | Some etag =>
        let s2 := mkState (trace s1 ++ [evHeadObject key])%list (seeks s1)
                    (puts s1) (archiveSize s1) in
        let backupTime :=
          match Parse layoutTimestamp timestamp with
          | Some t => t
          | None => mkTime 1 1 1 0 0 0
          end in
        let size := default 0 (contentLength w) in
        (inl {| Service := service; Path := pathName; Date := backupTime;
                Key := key; Size := size; ETag := etag |}, s2)
    end.

(** [result.ArchiveSize = fileInfo.Size()] *)
Definition setArchiveSize (size : Z) : step unit :=
  fun s => (inl tt, mkState (trace s) (seeks s) (puts s) size).

(** The checks of [backupPath] on the archive written to the temporary
    file: its size is read, recorded, and held against the configured
    minimum. *)
Definition checkSize (cfg : BackupConfig) (w : World) : step unit :=
  emit evStatTempFile ;;
  match tempFileSize w with
  | None => failWith "failed to get archive size"
  | Some size =>
      setArchiveSize size ;;
      if (0 <? MinSize cfg) && (size <? MinSize cfg)
      then failWith "archive size is below minimum threshold"
      else pure tt
  end.

(** The deferred [tempFile.Close()] and [os.Remove(tempFile.Name())], run
    when the function returns, however it returns. *)
Definition withTempFile {A : Type} (body : step A) : step A :=
  fun s =>
    let '(r, s') := body s in
    (r, mkState (trace s' ++ [evCloseTempFile; evRemoveTempFile])%list
          (seeks s') (puts s') (archiveSize s')).

(** [tempDir := s.cfg.Backup.TempDir], or [os.TempDir()] when empty. *)
Definition tempDirOf (cfg : BackupConfig) : string :=
  if String.eqb (TempDir cfg) "" then "/tmp" else TempDir cfg.

(** The result record and the calls made, once the steps have run. *)
Definition finish (serviceName pathName : string)
  (r : (BackupInfo + string) * State) : BackupResult.t * list event :=
  let '(outcome, s) := r in
  ({| BackupResult.Service := serviceName;
      BackupResult.Path := pathName;
      BackupResult.BackupInfo :=
        match outcome with inl info => Some info | inr _ => None end;
      BackupResult.ArchiveSize := archiveSize s;
      BackupResult.Error :=
        match outcome with inl _ => None | inr e => Some e end |},
   trace s).

(** [func (s *Service) backupPath(ctx, serviceName, pathName, pathLocation,
    includeFolders) *BackupResult] of [internal/backup/backup.go], with the
    calls it makes. *)
Definition backupPath (cfg : BackupConfig) (c : S3Client) (w : World)
  (serviceName pathName pathLocation : string) (includeFolders : list string)
  : BackupResult.t * list event :=
  finish serviceName pathName
    ((call (evStat pathLocation) (statSource w) "source path does not exist" ;;
      call (evMkdirAll (tempDirOf cfg)) (mkdirAll w) "failed to create temp directory" ;;
      call (evCreateTemp (tempDirOf cfg)) (createTemp w) "failed to create temp file" ;;
      withTempFile
        (call (evCreateArchive (Compression cfg) (PreserveACLs cfg) pathLocation)
              (createArchive w) "failed to create archive" ;;
         checkSize cfg w ;;
         seekStart w "failed to seek temp file" ;;
         Upload c w serviceName pathName))
       (mkState [] 0 0 0)).

(** The later revision of the package. *)
Module WithProgress.

(** The upload of the later revision: an upload that fails is tried once
    more, after a seek back to the start of the file. *)
Definition uploadWithRetry (c : S3Client) (w : World)
  (serviceName pathName : string) : step BackupInfo :=
  fun s =>
    match Upload c w serviceName pathName s with
    | (inl info, s') => (inl info, s')
    | (inr _, s') =>
        (seekStart w "failed to seek temp file for retry" ;;
         Upload c w serviceName pathName) s'
    end.

(** [func (s *Service) backupPath(...)] of the later revision: the files
    are counted for a progress bar (a failure to count is only logged), and
    the upload is retried once. *)
Definition backupPath (cfg : BackupConfig) (c : S3Client) (w : World)
  (serviceName pathName pathLocation : string) (includeFolders : list string)
  : BackupResult.t * list event :=
  finish serviceName pathName
    ((call (evStat pathLocation) (statSource w) "source path does not exist" ;;
      call (evMkdirAll (tempDirOf cfg)) (mkdirAll w) "failed to create temp directory" ;;
      call (evCreateTemp (tempDirOf cfg)) (createTemp w) "failed to create temp file" ;;
      withTempFile
        (emit (evCountFiles pathLocation) ;;
         call (evCreateArchive (Compression cfg) (PreserveACLs cfg) pathLocation)
              (createArchive w) "failed to create archive" ;;
         checkSize cfg w ;;
         seekStart w "failed to seek temp file" ;;
         uploadWithRetry c w serviceName pathName))
       (mkState [] 0 0 0)).

End WithProgress.

(** The keys that a run has put objects under. *)
Definition uploadedKeys (tr : list event) : list string :=
  flat_map (fun e => match e with evPutObject key => [key] | _ => [] end) tr.

End Backup.

(* ===================================================================== *)
(** ** [internal/config]: the configuration and its validation *)
(* ===================================================================== *)

Module Config.
Import GoStrings.

(** [type Service struct] *)
Record Service : Type := mkService {
  Paths : gmap string string;
  IncludeFolders : gmap string (list string) }.

(** [type Config struct]; the notification settings are left out, and
    [AutoCleanup] is the field that the later revision of the backup
    package reads. *)
Record t : Type := mk {
  Bucket : string;
  Prefix : string;
  Services : gmap string Service;
  Retention : Z;
  Backup : Backup.BackupConfig;
  AutoCleanup : bool }.

(** A loop over the entries of a map that returns the first error found. *)
Fixpoint firstError {V : Type} (check : string * V -> option string)
  (entries : list (string * V)) : option string :=
  match entries with
  | [] => None
  | e :: rest =>
      match check e with
      | Some err => Some err
      | None => firstError check rest
      end
  end.

Section WithRuntime.
Context `{GoRuntime}.

(** The body of the loop of [validateConfig] over the services;
    [filepath.IsAbs] on Unix asks for a leading ["/"]. *)
Definition checkService (entry : string * Service) : option string :=
  let name := fst entry in
  let service := snd entry in
  if Nat.eqb (size (Paths service)) 0
  then Some ("service " +:+ name +:+ " must have at least one path configured")
  else
    firstError
      (fun pathEntry : string * string =>
         if negb (HasPrefix (snd pathEntry) "/")
         then Some ("service " +:+ name +:+ " path " +:+ fst pathEntry
                    +:+ " must be an absolute path")
         else None)
      (rangeOrder (map_to_list (Paths service))).

(** [func validateConfig(cfg *Config) error]; [None] is [nil]. *)
Definition validateConfig (cfg : t) : option string :=
  if String.eqb (Bucket cfg) "" then Some "s3.bucket is required"
  else if Nat.eqb (size (Services cfg)) 0
  then Some "at least one service must be configured"
  else
    match firstError checkService (rangeOrder (map_to_list (Services cfg))) with
    | Some err => Some err
    | None =>
        if Retention cfg <=? 0 then Some "retention must be greater than 0"
        else if Backup.MinSize (Backup cfg) <? 0
        then Some "backup.min_size cannot be negative"
        else None
    end.

End WithRuntime.

End Config.

(* ===================================================================== *)
(** ** [internal/cleanup]: the cleanup run *)
(* ===================================================================== *)

(** [type CleanupOptions struct] *)
Module CleanupOptions.
Record t : Type := mk {
  ServiceName : string;
  OlderThan : Z;
  DryRun : bool;
  KeepLatest : Z }.
End CleanupOptions.

(** [type CleanupResult struct] *)
Module CleanupResult.
Record t : Type := mk {
  DeletedBackups : list Storage.BackupInfo;
  TotalSize : Z;
  Error : option string }.
End CleanupResult.

Module CleanupRun.
Import GoStrings GoTime Storage Cleanup.

(** What the object store and the clock answer during a cleanup: the
    objects listed under the prefix of a service ([None]: the listing
    fails), whether a batch deletion succeeds, and the time read while the
    backups of a service are selected. *)
Record World : Type := mkWorld {
  listing : string -> option (list Object);
  deleteOutcome : list string -> bool;
  clockAt : string -> Time }.

(** The calls made to the object store. *)
Inductive storeCall : Type :=
| callList (service : string)
| callDeleteMultiple (keys : list string).

(** The variables of the loop of [CleanupBackups]. *)
Record LoopState : Type := mkLoopState {
  allDeletedBackups : list BackupInfo;
  totalSize : Z;
  resultError : option string;
  calls : list storeCall }.

(** [totalSize += backup.Size] over the selected backups. *)
Definition sumSizes (backups : list BackupInfo) : Z :=
  foldl (fun total backup => total + Size backup) 0 backups.

Section WithRuntime.
Context `{GoRuntime}.

(** The body of the loop of [CleanupBackups] over the services to clean. *)
Definition cleanService (c : S3Client) (w : World) (olderThan : Z)
  (opts : CleanupOptions.t) (st : LoopState) (serviceName : string)
  : run LoopState :=
  let listed := (calls st ++ [callList serviceName])%list in
  match listing w serviceName with
  | None =>
      Return (mkLoopState (allDeletedBackups st) (totalSize st) (resultError st) listed)
  | Some contents =>
      let* backups := List c contents in
      let toDelete :=
        selectBackupsForDeletion (clockAt w serviceName) backups olderThan
          (CleanupOptions.KeepLatest opts) in
      if Nat.eqb (length toDelete) 0
      then Return (mkLoopState (allDeletedBackups st) (totalSize st)
                     (resultError st) listed)
      else if CleanupOptions.DryRun opts
      then Return (mkLoopState (allDeletedBackups st ++ toDelete)%list
                     (totalSize st + sumSizes toDelete) (resultError st) listed)
      else
        let keys := map Key toDelete in
        let deleting := (listed ++ [callDeleteMultiple keys])%list in
        if deleteOutcome w keys
        then Return (mkLoopState (allDeletedBackups st ++ toDelete)%list
                       (totalSize st + sumSizes toDelete) (resultError st) deleting)
        else Return (mkLoopState (allDeletedBackups st)
                       (totalSize st + sumSizes toDelete)
                       (Some "failed to delete S3 objects") deleting)
  end.

(** [func (s *Service) CleanupBackups(ctx, opts)], returning a result and an error,
    with the calls it makes to the store (notifications left out).  The
    first component is the result ([None]: [nil]), the second the error. *)
Definition CleanupBackups (cfg : Config.t) (c : S3Client) (w : World)
  (opts : CleanupOptions.t)
  : run (option CleanupResult.t * option string * list storeCall) :=
  let olderThan :=
    if CleanupOptions.OlderThan opts =? 0 then Config.Retention cfg
    else CleanupOptions.OlderThan opts in
  if olderThan <=? 0
  then Return (None, Some "retention period must be greater than 0", [])
  else
    let name := CleanupOptions.ServiceName opts in
    let servicesToClean :=
      if String.eqb name "" || String.eqb name "all"
      then Some (map fst (rangeOrder (map_to_list (Config.Services cfg))))
      else match Config.Services cfg !! name with
           | None => None
           | Some _ => Some [name]
           end in
    match servicesToClean with
    | None => Return (None, Some ("service " +:+ name +:+ " not found in configuration"), [])
    | Some services =>
        let* st := foldRun (cleanService c w olderThan opts)
                     (mkLoopState [] 0 None []) services in
        Return (Some (CleanupResult.mk (allDeletedBackups st) (totalSize st)
                        (resultError st)),
                resultError st, calls st)
    end.

End WithRuntime.

End CleanupRun.

(* ===================================================================== *)
(** ** Sample data *)
(* ===================================================================== *)

(** Records of the service ["web"] as [List] returns them, and a clock. *)
Module Sample.
Import GoTime Storage.

Definition client : S3Client := mkS3Client "bucket" "backups".

(** The record that [parseKey] decodes from the key of an upload made at
    time [t]. *)
Definition record (service path : string) (t : Time) : BackupInfo :=
  {| Service := service; Path := path; Date := t;
     Key := buildKey client service path (Format t layoutTimestamp);
     Size := 4096; ETag := "etag" |}.

Definition T1 : Time := mkTime 2024 1 1 3 0 0.
Definition T2 : Time := mkTime 2024 5 20 3 0 0.
Definition T3 : Time := mkTime 2024 5 31 3 0 0.
Definition T0 : Time := mkTime 2023 12 1 3 0 0.

(** The evaluation time: with 30 days of retention the cut-off is
    2024-05-02 12:00:00, so [T0] and [T1] are expired, [T2] and [T3] are
    not. *)
Definition now : Time := mkTime 2024 6 1 12 0 0.

End Sample.

(* ===================================================================== *)
(** * Properties *)
(* ===================================================================== *)

(* ===================================================================== *)
(** ** Go strings *)
(* ===================================================================== *)

Section GoStringsFacts.
Import GoStrings.

Lemma app_cons_s (c : ascii) (a b : string) :
    String c a +:+ b = String c (a +:+ b).
  Proof. reflexivity. Qed.

Lemma app_nil_l_s (b : string) : "" +:+ b = b.
  Proof. reflexivity. Qed.

Lemma len_cons (c : ascii) (a : string) : len (String c a) = S (len a).
  Proof. reflexivity. Qed.

Lemma len_app (a b : string) : len (a +:+ b) = (len a + len b)%nat.
  Proof.
    induction a as [|c a IH]; [reflexivity|].
    rewrite app_cons_s, !len_cons, IH. reflexivity.
  Qed.

Lemma app_assoc_s (a b c : string) : (a +:+ b) +:+ c = a +:+ (b +:+ c).
  Proof.
    induction a as [|x a IH]; [reflexivity|].
    rewrite !app_cons_s, IH. reflexivity.
  Qed.

Lemma app_nil_r_s (a : string) : a +:+ "" = a.
  Proof.
    induction a as [|x a IH]; [reflexivity|].
    rewrite app_cons_s, IH. reflexivity.
  Qed.

Lemma substring_0_app (p q : string) : substring 0 (len p) (p +:+ q) = p.
  Proof.
    induction p as [|c p IH].
    - rewrite app_nil_l_s. destruct q; reflexivity.
    - rewrite app_cons_s, len_cons. simpl. now rewrite IH.
  Qed.

Lemma substring_skip_app (p q : string) (n : nat) :
    substring (len p) n (p +:+ q) = substring 0 n q.
  Proof.
    induction p as [|c p IH]; [reflexivity|].
    rewrite app_cons_s, len_cons. simpl. exact IH.
  Qed.

Lemma substring_full (s : string) : substring 0 (len s) s = s.
  Proof.
    induction s as [|c s IH]; [reflexivity|].
    rewrite len_cons. simpl. now rewrite IH.
  Qed.

  (** A string is the concatenation of its first [n] bytes and the rest. *)
Lemma substring_split (s : string) (n : nat) :
    (n <= len s)%nat ->
    substring 0 n s +:+ substring n (len s - n) s = s.
  Proof.
    revert n. induction s as [|c s IH]; intros n Hn.
    - destruct n; [reflexivity | rewrite ?len_cons in Hn; simpl in Hn; lia].
    - rewrite len_cons in *. destruct n as [|n].
      + rewrite Nat.sub_0_r. change (String c (substring 0 (len s) s) = String c s).
        now rewrite substring_full.
      + change (String c (substring 0 n s +:+ substring n (len s - n) s) = String c s).
        f_equal. apply IH. lia.
  Qed.

Lemma HasPrefix_app (p r : string) : HasPrefix (p +:+ r) p = true.
  Proof.
    unfold HasPrefix. rewrite len_app, substring_0_app, String.eqb_refl.
    rewrite andb_true_r. apply Nat.leb_le. lia.
  Qed.

Lemma TrimPrefix_app (p r : string) : TrimPrefix (p +:+ r) p = r.
  Proof.
    unfold TrimPrefix. rewrite HasPrefix_app, substring_skip_app, len_app.
    replace (len p + len r - len p)%nat with (len r) by lia.
    apply substring_full.
  Qed.

Lemma HasSuffix_app (s suf : string) : HasSuffix (s +:+ suf) suf = true.
  Proof.
    unfold HasSuffix. rewrite len_app.
    replace (len s + len suf - len suf)%nat with (len s) by lia.
    rewrite substring_skip_app, substring_full, String.eqb_refl, andb_true_r.
    apply Nat.leb_le. lia.
  Qed.

Lemma TrimSuffix_app (s suf : string) : TrimSuffix (s +:+ suf) suf = s.
  Proof.
    unfold TrimSuffix. rewrite HasSuffix_app, len_app.
    replace (len s + len suf - len suf)%nat with (len s) by lia.
    apply substring_0_app.
  Qed.

  (** A string with a suffix is its trimmed part followed by the suffix. *)
Lemma HasSuffix_inv (s suf : string) :
    HasSuffix s suf = true -> s = TrimSuffix s suf +:+ suf.
  Proof.
    intros H. unfold TrimSuffix. rewrite H. unfold HasSuffix in H.
    apply andb_true_iff in H as [Hl He].
    apply Nat.leb_le in Hl. apply String.eqb_eq in He.
    pose proof (substring_split s (len s - len suf)%nat ltac:(lia)) as Hs.
    replace (len s - (len s - len suf))%nat with (len suf) in Hs by lia.
    rewrite He in Hs. now symmetry.
  Qed.

  (** *** Splitting and joining *)

Lemma Split_not_nil (s : string) (sep : ascii) : Split s sep <> [].
  Proof.
    destruct s as [|c s]; simpl; [discriminate|].
    destruct (Ascii.eqb c sep); [discriminate|].
    destruct (Split s sep); discriminate.
  Qed.

Lemma Split_length_pos (s : string) (sep : ascii) :
    (1 <= length (Split s sep))%nat.
  Proof.
    pose proof (Split_not_nil s sep). destruct (Split s sep); simpl; [congruence | lia].
  Qed.

Lemma concat_cons_char (sep : string) (c : ascii) (p : string) (ps : list string) :
    String.concat sep (String c p :: ps) = String c (String.concat sep (p :: ps)).
  Proof. destruct ps; reflexivity. Qed.

Lemma concat_cons_ne (sep x : string) (xs : list string) :
    xs <> [] -> String.concat sep (x :: xs) = x +:+ sep +:+ String.concat sep xs.
  Proof. destruct xs; [congruence | reflexivity]. Qed.

  (** Joining the pieces of a split with the separator gives the string back. *)
Lemma Join_Split (s : string) (sep : ascii) :
    Join (Split s sep) (String sep "") = s.
  Proof.
    unfold Join. induction s as [|c s IH]; [reflexivity|].
    simpl. destruct (Ascii.eqb_spec c sep) as [->|Hne].
    - rewrite concat_cons_ne by apply Split_not_nil. now rewrite IH.
    - pose proof (Split_not_nil s sep).
      destruct (Split s sep) as [|p ps]; [congruence|].
      rewrite concat_cons_char. now rewrite IH.
  Qed.

  (** Splitting distributes over a separator in the middle. *)
Lemma Split_app (a b : string) (sep : ascii) :
    Split (a +:+ String sep b) sep = (Split a sep ++ Split b sep)%list.
  Proof.
    induction a as [|c a IH].
    - rewrite app_nil_l_s. simpl. now rewrite Ascii.eqb_refl.
    - rewrite app_cons_s. simpl. destruct (Ascii.eqb c sep).
      + now rewrite IH.
      + rewrite IH. pose proof (Split_not_nil a sep).
        destruct (Split a sep); [congruence | reflexivity].
  Qed.

  (** A string without separator is a single piece. *)
Lemma Split_lacks (s : string) (sep : ascii) :
    lacks sep s = true -> Split s sep = [s].
  Proof.
    induction s as [|c s IH]; [reflexivity|]. simpl.
    intros [Hc Hs]%andb_true_iff. apply negb_true_iff in Hc. rewrite Hc.
    now rewrite (IH Hs).
  Qed.

  (** No piece of a split contains the separator. *)
Lemma Split_pieces_lack (s : string) (sep : ascii) :
    Forall (fun p => lacks sep p = true) (Split s sep).
  Proof.
    induction s as [|c s IH]; simpl.
    - repeat constructor.
    - destruct (Ascii.eqb c sep) eqn:E.
      + constructor; [reflexivity | exact IH].
      + destruct (Split s sep) as [|p ps]; [repeat constructor; simpl; now rewrite E|].
        inversion IH as [|? ? Hp Hps]; subst.
        constructor; [simpl; now rewrite E, Hp | exact Hps].
  Qed.

Lemma nth_last_eq {A} (l : list A) (d : A) :
    nth (length l - 1) l d = List.last l d.
  Proof.
    induction l as [|x l IH]; [reflexivity|].
    destruct l as [|y l]; [reflexivity|].
    simpl in *. now rewrite Nat.sub_0_r in IH.
  Qed.

Lemma concat_last_suffix (sep : string) (l : list string) :
    exists pre, String.concat sep l = pre +:+ List.last l "".
  Proof.
    induction l as [|x l [pre IH]].
    - now exists "".
    - destruct l as [|y l].
      + now exists "".
      + exists (x +:+ sep +:+ pre).
        rewrite concat_cons_ne by discriminate. rewrite IH.
        rewrite !app_assoc_s. reflexivity.
  Qed.

  (** The last piece of a split ends the string. *)
Lemma Split_last_suffix (s : string) (sep : ascii) :
    exists pre, s = pre +:+ List.last (Split s sep) "".
  Proof.
    destruct (concat_last_suffix (String sep "") (Split s sep)) as [pre H].
    exists pre. rewrite <- H. symmetry. apply Join_Split.
  Qed.

  (** The last piece is decided by any tail of the string that still holds a
      separator. *)
Lemma Split_last_tail (a b : string) (sep : ascii) :
    (2 <= length (Split b sep))%nat ->
    (2 <= length (Split (a +:+ b) sep))%nat
    /\ List.last (Split (a +:+ b) sep) "" = List.last (Split b sep) "".
  Proof.
    intros Hb. induction a as [|c a [IHl IHe]].
    - now rewrite app_nil_l_s.
    - rewrite app_cons_s. simpl. destruct (Ascii.eqb c sep).
      + split; [simpl; lia|].
        destruct (Split (a +:+ b) sep) as [|p ps]; [simpl in IHl; lia | exact IHe].
      + destruct (Split (a +:+ b) sep) as [|p [|q qs]]; simpl in IHl; try lia.
        split; [simpl; lia | exact IHe].
  Qed.

End GoStringsFacts.

(* ===================================================================== *)
(** ** Go times: parsing and formatting *)
(* ===================================================================== *)

Example Format_example :
  GoTime.Format (GoTime.mkTime 2024 3 9 7 5 0) GoTime.layoutTimestamp
  = "20240309-070500".
Proof. reflexivity. Qed.

Example Parse_example :
  GoTime.Parse GoTime.layoutTimestamp "20240229-235959"
  = Some (GoTime.mkTime 2024 2 29 23 59 59)
  /\ GoTime.Parse GoTime.layoutTimestamp "20230229-235959" = None
  /\ GoTime.Parse GoTime.layoutTimestamp "20240229-2359590" = None
  /\ GoTime.Parse GoTime.layoutDate "20240229" = Some (GoTime.mkTime 2024 2 29 0 0 0)
  /\ GoTime.unixSec (GoTime.mkTime 2024 2 29 23 59 59) = 1709251199
  /\ GoTime.unixSec (GoTime.mkTime 1970 1 1 0 0 0) = 0
  /\ GoTime.appendInt 12345 4 = "12345".
Proof. repeat split; reflexivity. Qed.

Section GoTimeFacts.
Import GoStrings GoTime.


Lemma digit_roundtrip (d : Z) :
    0 <= d <= 9 -> isDigit (digitChar d) = true /\ digitVal (digitChar d) = d.
  Proof.
    intros H.
    assert (d = 0 \/ d = 1 \/ d = 2 \/ d = 3 \/ d = 4 \/ d = 5 \/ d = 6
            \/ d = 7 \/ d = 8 \/ d = 9) as Hd by divlia.
    repeat (destruct Hd as [-> | Hd]; [split; reflexivity|]).
    subst d. split; reflexivity.
  Qed.

Lemma digit_inv (c : ascii) :
    isDigit c = true -> 0 <= digitVal c <= 9 /\ digitChar (digitVal c) = c.
  Proof.
    destruct c as [[] [] [] [] [] [] [] []]; intros H;
      try discriminate H; (split; [vm_compute; split; discriminate | reflexivity]).
  Qed.

Lemma appendInt2 (x : Z) :
    0 <= x < 100 ->
    appendInt x 2 = String (digitChar (x / 10)) (String (digitChar (x mod 10)) "").
  Proof.
    intros H. unfold appendInt. rewrite Z.abs_eq by lia.
    replace (x <? 0) with false by (symmetry; apply Z.ltb_ge; lia).
    replace (x <? 100) with true by (symmetry; apply Z.ltb_lt; lia).
    reflexivity.
  Qed.

Lemma appendInt4 (x : Z) :
    0 <= x < 10000 ->
    appendInt x 4 =
      String (digitChar (x / 1000))
        (String (digitChar (x / 100 mod 10))
          (String (digitChar (x / 10 mod 10))
            (String (digitChar (x mod 10)) ""))).
  Proof.
    intros H. unfold appendInt. rewrite Z.abs_eq by lia.
    replace (x <? 0) with false by (symmetry; apply Z.ltb_ge; lia).
    replace (x <? 10000) with true by (symmetry; apply Z.ltb_lt; lia).
    reflexivity.
  Qed.

Lemma getnum_appendInt2 (x : Z) (rest : string) (fixed : bool) :
    0 <= x < 100 -> getnum (appendInt x 2 +:+ rest) fixed = Some (x, rest).
  Proof.
    intros H. rewrite appendInt2 by exact H. rewrite !app_cons_s, app_nil_l_s.
    destruct (digit_roundtrip (x / 10)) as [Ha Hva]; [divlia|].
    destruct (digit_roundtrip (x mod 10)) as [Hb Hvb]; [divlia|].
    unfold getnum. rewrite Ha, Hb, Hva, Hvb. do 2 f_equal. divlia.
  Qed.

Lemma getyear_appendInt4 (x : Z) (rest : string) :
    0 <= x < 10000 -> getyear (appendInt x 4 +:+ rest) = Some (x, rest).
  Proof.
    intros H. rewrite appendInt4 by exact H. rewrite !app_cons_s, app_nil_l_s.
    destruct (digit_roundtrip (x / 1000)) as [Ha Hva]; [divlia|].
    destruct (digit_roundtrip (x / 100 mod 10)) as [Hb Hvb]; [divlia|].
    destruct (digit_roundtrip (x / 10 mod 10)) as [Hc Hvc]; [divlia|].
    destruct (digit_roundtrip (x mod 10)) as [Hd Hvd]; [divlia|].
    unfold getyear. rewrite Ha, Hb, Hc, Hd, Hva, Hvb, Hvc, Hvd. simpl andb.
    do 2 f_equal. divlia.
  Qed.

Lemma getnum_fixed_inv (s rest : string) (n : Z) :
    getnum s true = Some (n, rest) ->
    0 <= n < 100 /\ s = appendInt n 2 +:+ rest.
  Proof.
    unfold getnum. destruct s as [|a [|b r]]; try discriminate.
    - destruct (isDigit a); discriminate.
    - destruct (isDigit a) eqn:Ha; [|discriminate].
      destruct (isDigit b) eqn:Hb; [|discriminate].
      intros [= <- <-].
      destruct (digit_inv a Ha) as [Ra Ca], (digit_inv b Hb) as [Rb Cb].
      split; [divlia|]. rewrite appendInt2 by divlia.
      rewrite !app_cons_s, app_nil_l_s.
      replace ((digitVal a * 10 + digitVal b) / 10) with (digitVal a) by divlia.
      replace ((digitVal a * 10 + digitVal b) mod 10) with (digitVal b) by divlia.
      now rewrite Ca, Cb.
  Qed.

  (** A one-digit hour is only read when no digit follows, and then the
      two-digit minute cannot be read. *)
Lemma getnum_free_inv (s rest : string) (n : Z) :
    getnum s false = Some (n, rest) ->
    (0 <= n < 100 /\ s = appendInt n 2 +:+ rest) \/ getnum rest true = None.
  Proof.
    unfold getnum at 1. destruct s as [|a [|b r]]; try discriminate.
    - destruct (isDigit a); [|discriminate]. intros [= <- <-]. now right.
    - destruct (isDigit a) eqn:Ha; [|discriminate].
      destruct (isDigit b) eqn:Hb.
      + intros [= <- <-]. left.
        destruct (digit_inv a Ha) as [Ra Ca], (digit_inv b Hb) as [Rb Cb].
        split; [divlia|]. rewrite appendInt2 by divlia.
        rewrite !app_cons_s, app_nil_l_s.
        replace ((digitVal a * 10 + digitVal b) / 10) with (digitVal a) by divlia.
        replace ((digitVal a * 10 + digitVal b) mod 10) with (digitVal b) by divlia.
        now rewrite Ca, Cb.
      + intros [= <- <-]. right. unfold getnum. now rewrite Hb.
  Qed.

Lemma getyear_inv (s rest : string) (y : Z) :
    getyear s = Some (y, rest) ->
    0 <= y <= 9999 /\ s = appendInt y 4 +:+ rest.
  Proof.
    unfold getyear. destruct s as [|a [|b [|c [|d r]]]]; try discriminate.
    destruct (isDigit a) eqn:Ha; [|discriminate].
    destruct (isDigit b) eqn:Hb; [|discriminate].
    destruct (isDigit c) eqn:Hc; [|discriminate].
    destruct (isDigit d) eqn:Hd; [|discriminate].
    intros [= <- <-].
    destruct (digit_inv a Ha) as [Ra Ca], (digit_inv b Hb) as [Rb Cb],
             (digit_inv c Hc) as [Rc Cc], (digit_inv d Hd) as [Rd Cd].
    split; [divlia|]. rewrite appendInt4 by divlia.
    rewrite !app_cons_s, app_nil_l_s.
    set (va := digitVal a) in *. set (vb := digitVal b) in *.
    set (vc := digitVal c) in *. set (vd := digitVal d) in *.
    replace ((((va * 10 + vb) * 10 + vc) * 10 + vd) / 1000) with va by divlia.
    replace ((((va * 10 + vb) * 10 + vc) * 10 + vd) / 100 mod 10) with vb by divlia.
    replace ((((va * 10 + vb) * 10 + vc) * 10 + vd) / 10 mod 10) with vc by divlia.
    replace ((((va * 10 + vb) * 10 + vc) * 10 + vd) mod 10) with vd by divlia.
    now rewrite Ca, Cb, Cc, Cd.
  Qed.

Lemma HasPrefix_inv (s p : string) :
    HasPrefix s p = true -> s = p +:+ TrimPrefix s p.
  Proof.
    intros H. unfold TrimPrefix. rewrite H. unfold HasPrefix in H.
    apply andb_true_iff in H as [Hl He].
    apply Nat.leb_le in Hl. apply String.eqb_eq in He.
    pose proof (substring_split s (len p) Hl) as Hs.
    rewrite He in Hs. now symmetry.
  Qed.

Lemma ltb_false (a b : Z) : b <= a -> (a <? b) = false.
  Proof. intros. apply Z.ltb_ge. lia. Qed.
Lemma leb_false (a b : Z) : b < a -> (a <=? b) = false.
  Proof. intros. apply Z.leb_gt. lia. Qed.

  (** Parsing the canonical form of a valid time gives the time back. *)
Lemma Parse_Format_timestamp (t : Time) :
    validTime t -> Parse layoutTimestamp (Format t layoutTimestamp) = Some t.
  Proof.
    intros (Hy & Hm & Hd & Hh & Hmi & Hs).
    assert (daysIn (month t) (year t) <= 31) as Hd31.
    { unfold daysIn. repeat match goal with |- context [if ?b then _ else _] => destruct b end; lia. }
    destruct t as [y m d h mi sc]. simpl in *.
    unfold Parse, layoutTimestamp. simpl Format. unfold formatChunk. simpl.
    rewrite getyear_appendInt4 by lia. simpl.
    rewrite getnum_appendInt2 by lia.
    rewrite (leb_false m 0), (ltb_false 12 m) by lia. simpl.
    rewrite getnum_appendInt2 by lia. simpl.
    rewrite HasPrefix_app, TrimPrefix_app.
    rewrite getnum_appendInt2 by lia.
    rewrite (ltb_false h 0), (leb_false 24 h) by lia. simpl.
    rewrite getnum_appendInt2 by lia.
    rewrite (ltb_false mi 0), (leb_false 60 mi) by lia. simpl.
    rewrite getnum_appendInt2 by lia.
    rewrite (ltb_false sc 0), (leb_false 60 sc) by lia. simpl.
    rewrite (ltb_false d 1), (ltb_false (daysIn m y) d) by lia. reflexivity.
  Qed.

Lemma Parse_Format_date (t : Time) :
    validDate t -> Parse layoutDate (Format t layoutDate) = Some t.
  Proof.
    intros ((Hy & Hm & Hd & Hh & Hmi & Hs) & H0 & M0 & S0).
    assert (daysIn (month t) (year t) <= 31) as Hd31.
    { unfold daysIn. repeat match goal with |- context [if ?b then _ else _] => destruct b end; lia. }
    destruct t as [y m d h mi sc]. simpl in *. subst h mi sc.
    unfold Parse, layoutDate. simpl Format. unfold formatChunk. simpl.
    rewrite getyear_appendInt4 by lia. simpl.
    rewrite getnum_appendInt2 by lia.
    rewrite (leb_false m 0), (ltb_false 12 m) by lia. simpl.
    rewrite getnum_appendInt2 by lia. simpl.
    rewrite (ltb_false d 1), (ltb_false (daysIn m y) d) by lia. reflexivity.
  Qed.

Ltac parse_step H n r E :=
    match type of H with
    | context [match getyear ?v with _ => _ end] =>
        destruct (getyear v) as [[n r]|] eqn:E; [|discriminate H]
    | context [match getnum ?v ?f with _ => _ end] =>
        destruct (getnum v f) as [[n r]|] eqn:E; [|discriminate H]
    end; cbn [year month day hour minute second] in H.

Ltac cmp_to_Z :=
    repeat match goal with
    | H : (_ <? _) = false |- _ => apply Z.ltb_ge in H
    | H : (_ <=? _) = false |- _ => apply Z.leb_gt in H
    | H : (_ <? _) = true |- _ => apply Z.ltb_lt in H
    | H : (_ <=? _) = true |- _ => apply Z.leb_le in H
    end.

Ltac range_step H :=
    match type of H with
    | context [if ?b then None else _] =>
        let R := fresh "R" in
        destruct b eqn:R; [discriminate H|]; apply orb_false_iff in R as [? ?]
    end.

  (** Whatever [Parse] accepts for the timestamp layout is the canonical
      form of the valid time it returns. *)
Lemma Parse_inv_timestamp (s : string) (t : Time) :
    Parse layoutTimestamp s = Some t ->
    validTime t /\ s = Format t layoutTimestamp.
  Proof.
    unfold Parse, layoutTimestamp. simpl. intros H.
    parse_step H y r0 E0. apply getyear_inv in E0 as [Ry ->].
    parse_step H m r1 E1. apply getnum_fixed_inv in E1 as [Rm ->]. range_step H.
    parse_step H d r2 E2. apply getnum_fixed_inv in E2 as [Rd ->].
    destruct (HasPrefix r2 "-") eqn:Ep; [|discriminate H].
    apply HasPrefix_inv in Ep. rewrite Ep. set (r3 := TrimPrefix r2 "-") in *.
    clearbody r3. clear Ep.
    parse_step H h r4 E4. range_step H.
    apply getnum_free_inv in E4 as [[Rh ->] | Emin];
      [| rewrite Emin in H; discriminate H].
    parse_step H mi r5 E5. apply getnum_fixed_inv in E5 as [Rmi ->]. range_step H.
    parse_step H se r6 E6. apply getnum_fixed_inv in E6 as [Rs ->]. range_step H.
    destruct (negb (r6 =? "")%string) eqn:Er; [discriminate H|].
    apply negb_false_iff, String.eqb_eq in Er. subst r6.
    match type of H with
    | (if ?b then _ else _) = _ => destruct b eqn:Eb; [discriminate H|]
    end.
    apply orb_false_iff in Eb as [? ?].
    injection H as <-. unfold validTime, Format, formatChunk. simpl.
    split; [cmp_to_Z; simpl in *; lia | reflexivity].
  Qed.

Lemma Parse_inv_date (s : string) (t : Time) :
    Parse layoutDate s = Some t ->
    validDate t /\ s = Format t layoutDate.
  Proof.
    unfold Parse, layoutDate. simpl. intros H.
    parse_step H y r0 E0. apply getyear_inv in E0 as [Ry ->].
    parse_step H m r1 E1. apply getnum_fixed_inv in E1 as [Rm ->]. range_step H.
    parse_step H d r2 E2. apply getnum_fixed_inv in E2 as [Rd ->].
    destruct (negb (r2 =? "")%string) eqn:Er; [discriminate H|].
    apply negb_false_iff, String.eqb_eq in Er. subst r2.
    match type of H with
    | (if ?b then _ else _) = _ => destruct b eqn:Eb; [discriminate H|]
    end.
    apply orb_false_iff in Eb as [? ?].
    injection H as <-. unfold validDate, validTime, Format, formatChunk. simpl.
    split; [cmp_to_Z; simpl in *; lia | reflexivity].
  Qed.

Lemma digitChar_not_slash (d : Z) :
    0 <= d <= 9 -> Ascii.eqb (digitChar d) "/" = false.
  Proof.
    intros Hd9.
    assert (d = 0 \/ d = 1 \/ d = 2 \/ d = 3 \/ d = 4 \/ d = 5 \/ d = 6
            \/ d = 7 \/ d = 8 \/ d = 9) as Hc by lia.
    repeat (destruct Hc as [-> | Hc]; [reflexivity|]). now subst d.
  Qed.

  (** The canonical form has 15 bytes with ["-"] at index 8, and holds no
      ["/"]. *)
Lemma Format_timestamp_shape (t : Time) :
    validTime t ->
    len (Format t layoutTimestamp) = 15%nat
    /\ String.get 8 (Format t layoutTimestamp) = Some "-"%char
    /\ lacks "/" (Format t layoutTimestamp) = true.
  Proof.
    intros (Hy & Hm & Hd & Hh & Hmi & Hs).
    assert (daysIn (month t) (year t) <= 31) as Hd31.
    { unfold daysIn. repeat match goal with |- context [if ?b then _ else _] => destruct b end; lia. }
    unfold Format, layoutTimestamp, formatChunk.
    rewrite appendInt4 by lia. rewrite !appendInt2 by lia.
    repeat rewrite ?app_cons_s, ?app_nil_l_s.
    split; [reflexivity|]. split; [reflexivity|].
    simpl. rewrite !digitChar_not_slash by divlia. reflexivity.
  Qed.

End GoTimeFacts.


(* ===================================================================== *)
(** ** The key codec *)
(* ===================================================================== *)

Example parseKey_example :
  Storage.parseKey (Storage.mkS3Client "b" "backups")
    "backups/web/data/sub/20240229-235959.tar.gz"
  = Return (Some (Storage.mkBackupInfo "web" "data/sub"
                    (GoTime.mkTime 2024 2 29 23 59 59)
                    "backups/web/data/sub/20240229-235959.tar.gz" 0 ""))
  /\ Storage.parseKey (Storage.mkS3Client "b" "backups")
       "backups/web/data/web-data-20240229-235959.tar.gz" = Return None
  /\ Storage.buildKey (Storage.mkS3Client "b" "backups") "web" "data/sub"
       "20240229-235959" = "backups/web/data/sub/20240229-235959.tar.gz".
Proof. repeat split; reflexivity. Qed.

Section RunFacts.

Lemma index_in_range {A : Type} (l : list A) (i : Z) (d : A) :
  0 <= i < Z.of_nat (length l) -> index l i = Return (nth (Z.to_nat i) l d).
Proof.
  intros H. unfold index. rewrite (ltb_false i 0) by lia.
  destruct (l !! Z.to_nat i) as [x|] eqn:E.
  - f_equal. symmetry. now apply nth_lookup_Some.
  - apply lookup_ge_None in E. lia.
Qed.

Lemma slice_in_range {A : Type} (l : list A) (lo hi : Z) :
  0 <= lo <= hi -> hi <= Z.of_nat (length l) ->
  slice l lo hi = Return (drop (Z.to_nat lo) (take (Z.to_nat hi) l)).
Proof.
  intros H1 H2. unfold slice.
  replace (0 <=? lo) with true by (symmetry; apply Z.leb_le; lia).
  replace (lo <=? hi) with true by (symmetry; apply Z.leb_le; lia).
  replace (hi <=? Z.of_nat (length l)) with true by (symmetry; apply Z.leb_le; lia).
  reflexivity.
Qed.

Lemma get_in_range (s : string) (n : nat) :
  (n < GoStrings.len s)%nat -> exists c, String.get n s = Some c.
Proof.
  revert n. induction s as [|c s IH]; intros n Hn.
  - unfold GoStrings.len in Hn. simpl in Hn. lia.
  - destruct n as [|n]; [now exists c|].
    simpl. apply IH. rewrite len_cons in Hn. lia.
Qed.

Lemma byteIndex_in_range (s : string) (i : Z) :
  0 <= i < Z.of_nat (GoStrings.len s) ->
  exists c, byteIndex s i = Return c /\ String.get (Z.to_nat i) s = Some c.
Proof.
  intros H. unfold byteIndex. rewrite (ltb_false i 0) by lia.
  destruct (get_in_range s (Z.to_nat i)) as [c Hc]; [lia|].
  rewrite Hc. eauto.
Qed.

End RunFacts.

Section StorageFacts.
Import GoStrings GoTime Storage.

Lemma TrimPrefix_tail (s p : string) : exists pre, s = pre +:+ TrimPrefix s p.
Proof.
  destruct (HasPrefix s p) eqn:E.
  - exists p. now apply HasPrefix_inv.
  - exists "". unfold TrimPrefix. now rewrite E.
Qed.

(** What [parseKey] returns: [nil], or a record read off the pieces of the
    key; it never panics. *)
Lemma parseKey_cases (c : S3Client) (key : string) :
  parseKey c key = Return None
  \/ exists b parts,
       parseKey c key = Return (Some b)
       /\ parts = Split (TrimPrefix key (prefix c +:+ "/")) "/"
       /\ (3 <= length parts)%nat
       /\ HasPrefix key (prefix c) = true
       /\ Service b = nth 0 parts ""
       /\ Path b = Join (drop 1 (take (length parts - 1) parts)) "/"
       /\ validTime (Date b)
       /\ List.last parts "" = Format (Date b) layoutTimestamp +:+ ".tar.gz"
       /\ Key b = key /\ Size b = 0 /\ ETag b = "".
Proof.
  unfold parseKey.
  destruct (HasPrefix key (prefix c)) eqn:Hp; simpl; [|now left].
  set (parts := Split (TrimPrefix key (prefix c +:+ "/")) "/").
  destruct (Z.of_nat (length parts) <? 3) eqn:Hn; [now left|].
  apply Z.ltb_ge in Hn.
  rewrite (index_in_range parts 0 "") by lia.
  rewrite slice_in_range by lia.
  rewrite (index_in_range parts (Z.of_nat (length parts) - 1) "") by lia.
  simpl bind.
  replace (Z.to_nat (Z.of_nat (length parts) - 1)) with (length parts - 1)%nat by lia.
  rewrite nth_last_eq. set (filename := List.last parts "").
  destruct (HasSuffix filename ".tar.gz") eqn:Hs; simpl; [|now left].
  destruct (Nat.eqb (len (TrimSuffix filename ".tar.gz")) 15) eqn:Hl; simpl; [|now left].
  apply Nat.eqb_eq in Hl.
  destruct (byteIndex_in_range (TrimSuffix filename ".tar.gz") 8) as (sep & -> & _); [lia|].
  simpl bind.
  destruct (Ascii.eqb sep "-"); simpl; [|now left].
  destruct (Parse layoutTimestamp (TrimSuffix filename ".tar.gz")) as [date|] eqn:Ept; [|now left].
  right. apply Parse_inv_timestamp in Ept as [Hv Hfmt].
  eexists. exists parts. split; [reflexivity|].
  cbn [Service Path Date Key Size ETag].
  split_and!; try assumption; try lia; try reflexivity.
  change (filename = Format date layoutTimestamp +:+ ".tar.gz").
  rewrite <- Hfmt. now apply HasSuffix_inv.
Qed.

Lemma parseKey_no_panic (c : S3Client) (key : string) : parseKey c key <> Panic.
Proof.
  destruct (parseKey_cases c key) as [-> | (b & parts & -> & _)]; discriminate.
Qed.

(** The filename read by [parseKey] is the trailing filename of the key. *)
Lemma parseKey_filename (c : S3Client) (key : string) (b : BackupInfo) :
  parseKey c key = Return (Some b) ->
  validTime (Date b)
  /\ trailingFilename key = Format (Date b) layoutTimestamp +:+ ".tar.gz".
Proof.
  intros H. destruct (parseKey_cases c key) as [E | (b' & parts & E & Hparts & Hlen & _ & _ & _ & Hv & Hlast & _)];
    rewrite E in H; [discriminate|]. injection H as <-.
  split; [exact Hv|]. rewrite <- Hlast. unfold trailingFilename.
  destruct (TrimPrefix_tail key (prefix c +:+ "/")) as [pre Hpre].
  rewrite Hpre at 1. rewrite Hparts.
  apply Split_last_tail. rewrite <- Hparts. lia.
Qed.

(** Records read from keys have a service name without ["/"]. *)
Lemma parseKey_service_lacks_slash (c : S3Client) (key : string) (b : BackupInfo) :
  parseKey c key = Return (Some b) -> lacks "/" (Service b) = true.
Proof.
  intros H. destruct (parseKey_cases c key) as [E | (b' & parts & E & Hparts & Hlen & _ & Hsvc & _)];
    rewrite E in H; [discriminate|]. injection H as <-.
  rewrite Hsvc. pose proof (Split_pieces_lack (TrimPrefix key (prefix c +:+ "/")) "/") as HF.
  rewrite <- Hparts in HF. destruct parts as [|p ps]; [simpl in Hlen; lia|].
  now inversion HF.
Qed.

Lemma lacks_app (c : ascii) (a b : string) :
  lacks c (a +:+ b) = lacks c a && lacks c b.
Proof.
  induction a as [|x a IH]; [reflexivity|].
  rewrite app_cons_s. simpl. rewrite IH. now rewrite andb_assoc.
Qed.

Lemma canonicalFilename_length (f : string) :
  canonicalFilename f -> len f = 22%nat.
Proof.
  intros (t & Hv & ->). rewrite len_app.
  destruct (Format_timestamp_shape t Hv) as (-> & _). reflexivity.
Qed.

(** The key built for a record, cut at its separators. *)
Lemma buildKey_shape (c : S3Client) (service pathName timestamp : string) :
  buildKey c service pathName timestamp
  = (prefix c +:+ "/")
    +:+ (service +:+ String "/" (pathName +:+ String "/" (timestamp +:+ ".tar.gz"))).
Proof. unfold buildKey, Join. simpl. now rewrite app_assoc_s. Qed.

(** C4 (key round-trip).  For every non-empty service name without ["/"],
    every non-empty path name (which may contain ["/"]) and every valid
    calendar time [t], decoding the key built from the service, the path
    name and the canonical 15-byte form of [t] returns the record with that
    service, that path name and the time [t] (and the key itself). *)
Theorem key_round_trip (c : S3Client) (service pathName : string) (t : Time) :
  service <> "" -> lacks "/" service = true -> pathName <> "" -> validTime t ->
  parseKey c (buildKey c service pathName (Format t layoutTimestamp))
  = Return (Some {| Service := service; Path := pathName; Date := t;
                    Key := buildKey c service pathName (Format t layoutTimestamp);
                    Size := 0; ETag := "" |}).
Proof.
  intros _ Hsvc _ Hv.
  destruct (Format_timestamp_shape t Hv) as (Hlen & Hsep & Hts).
  set (ts := Format t layoutTimestamp) in *.
  unfold parseKey. rewrite buildKey_shape.
  set (rest := service +:+ String "/" (pathName +:+ String "/" (ts +:+ ".tar.gz"))).
  replace (HasPrefix ((prefix c +:+ "/") +:+ rest) (prefix c)) with true
    by (rewrite app_assoc_s; symmetry; apply HasPrefix_app).
  simpl negb. cbv iota. rewrite TrimPrefix_app. subst rest.
  rewrite !Split_app, (Split_lacks service) by exact Hsvc.
  rewrite (Split_lacks (ts +:+ ".tar.gz"))
    by (rewrite lacks_app, Hts; reflexivity).
  pose proof (Split_length_pos pathName "/") as Hm.
  set (m := Split pathName "/") in *.
  assert (length ([service] ++ m ++ [ts +:+ ".tar.gz"]) = S (S (length m)))%nat as HL.
  { rewrite !length_app. simpl. lia. }
  rewrite HL. rewrite (ltb_false _ 3) by lia.
  rewrite (index_in_range _ 0 "") by lia.
  rewrite slice_in_range by lia.
  rewrite (index_in_range _ (Z.of_nat (S (S (length m))) - 1) "") by lia.
  unfold bind.
  replace (Z.to_nat (Z.of_nat (S (S (length m))) - 1)) with (S (length m)) by lia.
  assert (nth (S (length m)) ([service] ++ m ++ [ts +:+ ".tar.gz"]) ""
          = ts +:+ ".tar.gz") as ->.
  { simpl. rewrite app_nth2 by lia. now rewrite Nat.sub_diag. }
  assert (drop (Z.to_nat 1) (take (S (length m)) ([service] ++ m ++ [ts +:+ ".tar.gz"]))
          = m) as ->.
  { simpl. rewrite take_app_length. reflexivity. }
  rewrite HasSuffix_app, TrimSuffix_app. simpl negb. cbv iota.
  rewrite Hlen. simpl negb. cbv iota.
  unfold byteIndex. rewrite (ltb_false 8 0) by lia.
  change (Z.to_nat 8) with 8%nat. rewrite Hsep. unfold bind.
  change (negb (Ascii.eqb "-" "-")) with false. cbv iota.
  subst ts. rewrite Parse_Format_timestamp by exact Hv.
  subst m. rewrite Join_Split. reflexivity.
Qed.

(** Witness of C4: service ["web"], path name ["data/sub"],
    2024-02-29 23:59:59. *)
Lemma key_round_trip_witness :
  parseKey (mkS3Client "bucket" "backups")
    (buildKey (mkS3Client "bucket" "backups") "web" "data/sub"
       (Format (mkTime 2024 2 29 23 59 59) layoutTimestamp))
  = Return (Some {| Service := "web"; Path := "data/sub";
                    Date := mkTime 2024 2 29 23 59 59;
                    Key := "backups/web/data/sub/20240229-235959.tar.gz";
                    Size := 0; ETag := "" |}).
Proof.
  apply (key_round_trip (mkS3Client "bucket" "backups") "web" "data/sub"
           (mkTime 2024 2 29 23 59 59)).
  - discriminate.
  - reflexivity.
  - discriminate.
  - unfold validTime. simpl. vm_compute. intuition discriminate.
Defined.

(** C5 (foreign-key rejection).  For every key under the configured prefix
    whose trailing filename is not exactly the canonical 15-byte form of a
    valid calendar time followed by [".tar.gz"], [parseKey] returns [nil]:
    it neither panics nor returns a record. *)
Theorem foreign_key_rejected (c : S3Client) (key : string) :
  HasPrefix key (prefix c) = true ->
  ~ canonicalFilename (trailingFilename key) ->
  parseKey c key = Return None.
Proof.
  intros _ Hforeign.
  destruct (parseKey_cases c key) as [E | (b & parts & E & _)]; [exact E|].
  exfalso. apply Hforeign.
  destruct (parseKey_filename c key b E) as [Hv Hf].
  exists (Date b). now split.
Qed.

(** Witness of C5: an unrelated object under the prefix. *)
Lemma foreign_key_rejected_witness :
  parseKey (mkS3Client "bucket" "backups")
    "backups/web/data/web-data-20240229-235959.tar.gz" = Return None.
Proof.
  apply foreign_key_rejected.
  - reflexivity.
  - intros H. apply canonicalFilename_length in H. vm_compute in H. discriminate H.
Defined.

(** *** More on the key codec *)

(** Decoding a built key, for any path name and any slash-free service. *)
Lemma decode_built_key (c : S3Client) (service pathName : string) (t : Time) :
  lacks "/" service = true -> validTime t ->
  parseKey c (buildKey c service pathName (Format t layoutTimestamp))
  = Return (Some {| Service := service; Path := pathName; Date := t;
                    Key := buildKey c service pathName (Format t layoutTimestamp);
                    Size := 0; ETag := "" |}).
Proof.
  intros Hsvc Hv.
  destruct (Format_timestamp_shape t Hv) as (Hlen & Hsep & Hts).
  set (ts := Format t layoutTimestamp) in *.
  unfold parseKey. rewrite buildKey_shape.
  set (rest := service +:+ String "/" (pathName +:+ String "/" (ts +:+ ".tar.gz"))).
  replace (HasPrefix ((prefix c +:+ "/") +:+ rest) (prefix c)) with true
    by (rewrite app_assoc_s; symmetry; apply HasPrefix_app).
  simpl negb. cbv iota. rewrite TrimPrefix_app. subst rest.
  rewrite !Split_app, (Split_lacks service) by exact Hsvc.
  rewrite (Split_lacks (ts +:+ ".tar.gz"))
    by (rewrite lacks_app, Hts; reflexivity).
  pose proof (Split_length_pos pathName "/") as Hm.
  set (m := Split pathName "/") in *.
  assert (length ([service] ++ m ++ [ts +:+ ".tar.gz"]) = S (S (length m)))%nat as HL.
  { rewrite !length_app. simpl. lia. }
  rewrite HL. rewrite (ltb_false _ 3) by lia.
  rewrite (index_in_range _ 0 "") by lia.
  rewrite slice_in_range by lia.
  rewrite (index_in_range _ (Z.of_nat (S (S (length m))) - 1) "") by lia.
  unfold bind.
  replace (Z.to_nat (Z.of_nat (S (S (length m))) - 1)) with (S (length m)) by lia.
  assert (nth (S (length m)) ([service] ++ m ++ [ts +:+ ".tar.gz"]) ""
          = ts +:+ ".tar.gz") as ->.
  { simpl. rewrite app_nth2 by lia. now rewrite Nat.sub_diag. }
  assert (drop (Z.to_nat 1) (take (S (length m)) ([service] ++ m ++ [ts +:+ ".tar.gz"]))
          = m) as ->.
  { simpl. rewrite take_app_length. reflexivity. }
  rewrite HasSuffix_app, TrimSuffix_app. simpl negb. cbv iota.
  rewrite Hlen. simpl negb. cbv iota.
  unfold byteIndex. rewrite (ltb_false 8 0) by lia.
  change (Z.to_nat 8) with 8%nat. rewrite Hsep. unfold bind.
  change (negb (Ascii.eqb "-" "-")) with false. cbv iota.
  subst ts. rewrite Parse_Format_timestamp by exact Hv.
  subst m. rewrite Join_Split. reflexivity.
Qed.


Lemma take_last_decomp {A : Type} (l : list A) (d : A) :
  l <> [] -> l = (take (length l - 1) l ++ [List.last l d])%list.
Proof.
  induction l as [|x l IH]; [congruence|]. intros _.
  destruct l as [|y l]; [reflexivity|].
  replace (length (x :: y :: l) - 1)%nat with (S (length (y :: l) - 1))
    by (simpl; lia).
  change (take (S (length (y :: l) - 1)) (x :: y :: l))
    with (x :: take (length (y :: l) - 1) (y :: l)).
  change (List.last (x :: y :: l) d) with (List.last (y :: l) d).
  simpl app. f_equal. apply IH. discriminate.
Qed.

(** A slice of at least two elements is its first element, its middle and
    its last element. *)
Lemma ends_decomp {A : Type} (l : list A) (d : A) :
  (2 <= length l)%nat ->
  l = (nth 0 l d :: drop 1 (take (length l - 1) l) ++ [List.last l d])%list.
Proof.
  intros Hl. destruct l as [|x [|y l]]; simpl in Hl; try lia.
  rewrite (take_last_decomp (x :: y :: l) d) at 1 by discriminate.
  replace (length (x :: y :: l) - 1)%nat with (S (length (y :: l) - 1))
    by (simpl; lia).
  reflexivity.
Qed.

Lemma concat_app_ne (sep : string) (l1 l2 : list string) :
  l1 <> [] -> l2 <> [] ->
  String.concat sep (l1 ++ l2)
  = String.concat sep l1 +:+ sep +:+ String.concat sep l2.
Proof.
  intros H1 H2. induction l1 as [|x l1 IH]; [congruence|].
  destruct l1 as [|y l1].
  - simpl app. now rewrite concat_cons_ne.
  - change ((x :: y :: l1) ++ l2)%list with (x :: ((y :: l1) ++ l2))%list.
    rewrite concat_cons_ne by discriminate.
    rewrite IH by discriminate.
    rewrite (concat_cons_ne sep x (y :: l1)) by discriminate.
    now rewrite !app_assoc_s.
Qed.

(** X1 (decode, then encode).  A key that lies under the prefix followed by
    ["/"] and that [parseKey] decodes is the key that [buildKey] builds from
    the decoded service, path name and time, and it is the key stored in the
    record. *)
Theorem parseKey_then_buildKey (c : S3Client) (key : string) (b : BackupInfo) :
  HasPrefix key (prefix c +:+ "/") = true ->
  parseKey c key = Return (Some b) ->
  buildKey c (Service b) (Path b) (Format (Date b) layoutTimestamp) = key
  /\ Key b = key.
Proof.
  intros Hpre Hp.
  destruct (parseKey_cases c key)
    as [E | (b' & parts & E & Hparts & Hlen & _ & Hsvc & Hpath & _ & Hlast & Hkey & _)];
    rewrite E in Hp; [discriminate|]. injection Hp as <-.
  split; [|exact Hkey].
  assert (drop 1 (take (length parts - 1) parts) <> []) as Hmid.
  { intros E0. apply (f_equal (@length string)) in E0.
    rewrite length_drop, length_take in E0. simpl in E0. lia. }
  assert (TrimPrefix key (prefix c +:+ "/")
          = nth 0 parts ""
            +:+ String "/" (Join (drop 1 (take (length parts - 1) parts)) "/"
                            +:+ String "/" (List.last parts ""))) as Hrel.
  { rewrite <- (Join_Split (TrimPrefix key (prefix c +:+ "/")) "/"), <- Hparts.
    rewrite (ends_decomp parts "") at 1 by lia.
    unfold Join.
    rewrite concat_cons_ne by (destruct (drop 1 _); discriminate).
    rewrite concat_app_ne by (assumption || discriminate).
    reflexivity. }
  rewrite buildKey_shape, Hsvc, Hpath, <- Hlast, <- Hrel.
  symmetry. now apply HasPrefix_inv.
Qed.

(** Witness of X1. *)
Lemma parseKey_then_buildKey_witness :
  buildKey Sample.client "web" "data/sub"
    (Format (mkTime 2024 2 29 23 59 59) layoutTimestamp)
  = "backups/web/data/sub/20240229-235959.tar.gz"
  /\ Key (mkBackupInfo "web" "data/sub" (mkTime 2024 2 29 23 59 59)
            "backups/web/data/sub/20240229-235959.tar.gz" 0 "")
     = "backups/web/data/sub/20240229-235959.tar.gz".
Proof.
  apply (parseKey_then_buildKey Sample.client
           "backups/web/data/sub/20240229-235959.tar.gz"
           (mkBackupInfo "web" "data/sub" (mkTime 2024 2 29 23 59 59)
              "backups/web/data/sub/20240229-235959.tar.gz" 0 "")).
  - reflexivity.
  - reflexivity.
Defined.

End StorageFacts.

(* ===================================================================== *)
(** ** The retention selector *)
(* ===================================================================== *)

Section SelectorFacts.
Import GoStrings GoTime Storage Cleanup.

Lemma newestFirst_strictWeak :
  strictWeak (fun a b : BackupInfo => After (Date a) (Date b)).
Proof.
  unfold After. split.
  - intros a b Hab. apply Z.ltb_lt in Hab. apply Z.ltb_ge. lia.
  - intros a b c Hab Hbc. apply Z.ltb_ge in Hab, Hbc. apply Z.ltb_ge. lia.
Qed.


(** The cut-off date lies [olderThanDays] whole days before [now]. *)
Lemma cutoff_unixSec (now : Time) (d : Z) :
  unixSec (AddDate now 0 0 (- d)) = unixSec now - 86400 * d.
Proof.
  unfold unixSec, AddDate. simpl. rewrite !Z.add_0_r. lia.
Qed.

Lemma Before_cutoff (now : Time) (d : Z) (b : BackupInfo) :
  Before (Date b) (AddDate now 0 0 (- d)) = expired now d b.
Proof. unfold Before, expired. now rewrite cutoff_unixSec. Qed.

Lemma filter_perm {A : Type} (f : A -> bool) (l l' : list A) :
  Permutation l l' -> Permutation (List.filter f l) (List.filter f l').
Proof.
  induction 1 as [|x l l' _ IH|x y l|l l' l'' _ IH1 _ IH2]; simpl.
  - constructor.
  - destruct (f x); [now constructor | exact IH].
  - destruct (f x), (f y); try reflexivity. apply perm_swap.
  - now transitivity (List.filter f l').
Qed.

Lemma filter_all {A : Type} (f : A -> bool) (l : list A) :
  (forall x, In x l -> f x = true) -> List.filter f l = l.
Proof.
  induction l as [|x l IH]; intros Hall; simpl; [reflexivity|].
  rewrite (Hall x) by now left. f_equal. apply IH. intros y Hy. apply Hall. now right.
Qed.

Lemma filter_none {A : Type} (f : A -> bool) (l : list A) :
  (forall x, In x l -> f x = false) -> List.filter f l = [].
Proof.
  induction l as [|x l IH]; intros Hall; simpl; [reflexivity|].
  rewrite (Hall x) by now left. apply IH. intros y Hy. apply Hall. now right.
Qed.

(** Two keys with slash-free services agree only for the same service and
    path. *)
Lemma sep_inj (c : ascii) (a a' b b' : string) :
  lacks c a = true -> lacks c a' = true ->
  a +:+ String c b = a' +:+ String c b' -> a = a' /\ b = b'.
Proof.
  revert a'. induction a as [|x a IH]; intros [|x' a'] Ha Ha' E.
  - rewrite !app_nil_l_s in E. injection E as ->. now split.
  - rewrite app_nil_l_s, app_cons_s in E. injection E as <- _.
    simpl in Ha'. now rewrite Ascii.eqb_refl in Ha'.
  - rewrite app_nil_l_s, app_cons_s in E. injection E as -> _.
    simpl in Ha. now rewrite Ascii.eqb_refl in Ha.
  - rewrite !app_cons_s in E. injection E as -> E.
    simpl in Ha, Ha'. apply andb_true_iff in Ha as [_ Ha], Ha' as [_ Ha'].
    destruct (IH a' Ha Ha' E) as [-> ->]. now split.
Qed.

Lemma groupKey_inGroup (service path : string) (b : BackupInfo) :
  lacks "/" service = true -> lacks "/" (Service b) = true ->
  String.eqb (groupKey b) (service +:+ "/" +:+ path) = inGroup service path b.
Proof.
  intros Hs Hb. unfold inGroup, groupKey.
  destruct (String.eqb_spec (Service b +:+ "/" +:+ Path b) (service +:+ "/" +:+ path)) as [E|E].
  - apply (sep_inj "/" _ _ _ _ Hb Hs) in E as [-> ->].
    now rewrite !String.eqb_refl.
  - destruct (String.eqb_spec (Service b) service) as [E1|]; [|reflexivity].
    destruct (String.eqb_spec (Path b) path) as [E2|]; [|reflexivity].
    rewrite E1, E2 in E. now contradiction E.
Qed.

(** After a grouping loop, the entry of a key holds the elements with that
    key, in input order; keys without element have no entry. *)
Lemma grouping_lookup {A : Type} (keyOf : A -> string) (l : list A)
  (m0 : gmap string (list A)) (k : string) :
  foldl (fun m x => appendAt m (keyOf x) x) m0 l !! k
  = match List.filter (fun x => String.eqb (keyOf x) k) l with
    | [] => m0 !! k
    | fl => Some (default [] (m0 !! k) ++ fl)%list
    end.
Proof.
  revert m0. induction l as [|b l IH]; intros m0; [reflexivity|].
  simpl foldl. rewrite IH. simpl List.filter. unfold appendAt.
  destruct (String.eqb_spec (keyOf b) k) as [E|Hne].
  - rewrite E, lookup_insert_eq. simpl default.
    destruct (List.filter _ l) as [|x fl]; [reflexivity|].
    now rewrite <- List.app_assoc.
  - now rewrite lookup_insert_ne by exact Hne.
Qed.

Lemma grouping_entry {A : Type} (keyOf : A -> string) (l : list A)
  (k : string) (g : list A) :
  foldl (fun m x => appendAt m (keyOf x) x) ∅ l !! k = Some g ->
  g = List.filter (fun x => String.eqb (keyOf x) k) l /\ g <> [].
Proof.
  rewrite grouping_lookup, lookup_empty.
  destruct (List.filter _ l); [discriminate|]. intros [= <-]. now split.
Qed.

(** Filtering by key what a loop over the groups collects leaves the
    contribution of the group of that key, when each group contributes only
    elements of its own. *)
Lemma grouped_filter {A : Type} (keyOf : A -> string)
  (f : string * list A -> list A) (l : list A) (k : string) :
  (forall e x, In x (f e) -> In x (snd e)) ->
  Permutation
    (List.filter (fun x => String.eqb (keyOf x) k)
       (flat_map f (map_to_list (foldl (fun m x => appendAt m (keyOf x) x) ∅ l))))
    (match List.filter (fun x => String.eqb (keyOf x) k) l with
     | [] => []
     | g => f (k, g)
     end).
Proof.
  intros Hsub.
  set (groups := foldl (fun m x => appendAt m (keyOf x) x) ∅ l).
  assert (forall (es : list (string * list A)),
            (forall k' g', In (k', g') es -> k' <> k /\ groups !! k' = Some g') ->
            List.filter (fun x => String.eqb (keyOf x) k) (flat_map f es) = []) as Hrest.
  { intros es Hes. apply filter_none. intros x Hx.
    apply in_flat_map in Hx as ([k' g'] & He & Hx).
    destruct (Hes k' g' He) as [Hk Hg]. apply grouping_entry in Hg as [Hg _].
    apply Hsub in Hx. simpl in Hx. rewrite Hg in Hx.
    apply List.filter_In in Hx as [_ Hx]. apply String.eqb_eq in Hx.
    apply String.eqb_neq. congruence. }
  pose proof (grouping_lookup keyOf l ∅ k) as Hk. rewrite lookup_empty in Hk.
  fold groups in Hk.
  destruct (List.filter (fun x => String.eqb (keyOf x) k) l) as [|x0 g0] eqn:Eg.
  - rewrite Hrest; [reflexivity|].
    intros k' g' He. apply list_elem_of_In, elem_of_map_to_list in He.
    split; [congruence | exact He].
  - simpl in Hk.
    rewrite (filter_perm _ _ _
               (Permutation_flat_map f (Permutation_sym (map_to_list_delete groups k _ Hk)))).
    simpl flat_map. rewrite List.filter_app.
    rewrite (filter_all _ (f (k, x0 :: g0))).
    2:{ intros x Hx. apply Hsub in Hx. cbn [snd] in Hx. rewrite <- Eg in Hx.
        now apply List.filter_In in Hx as [_ Hx]. }
    rewrite Hrest; [now rewrite List.app_nil_r|].
    intros k' g' He. apply list_elem_of_In, elem_of_map_to_list in He.
    apply lookup_delete_Some in He as [Hne Hg]. split; [congruence | exact Hg].
Qed.

Lemma appendAt_elements {A : Type} (m : gmap string (list A)) (k : string) (x : A) :
  Permutation (flat_map snd (map_to_list (appendAt m k x)))
    (flat_map snd (map_to_list m) ++ [x])%list.
Proof.
  unfold appendAt. destruct (m !! k) as [v|] eqn:E; simpl default.
  - rewrite <- (insert_delete_eq m k).
    rewrite (Permutation_flat_map snd
               (map_to_list_insert (delete k m) k (v ++ [x])%list (lookup_delete_eq m k))).
    rewrite <- (Permutation_flat_map snd (map_to_list_delete m k v E)).
    simpl flat_map. rewrite <- !List.app_assoc.
    apply Permutation_app_head, Permutation_app_comm.
  - rewrite (Permutation_flat_map snd (map_to_list_insert m k [x] E)).
    simpl flat_map. apply Permutation_cons_append.
Qed.

(** Grouping only rearranges: the groups together hold the elements of the
    input, each once. *)
Lemma grouping_partition {A : Type} (keyOf : A -> string) (l : list A) :
  Permutation
    (flat_map snd (map_to_list (foldl (fun m x => appendAt m (keyOf x) x) ∅ l)))
    l.
Proof.
  assert (forall m0 : gmap string (list A),
            Permutation
              (flat_map snd (map_to_list (foldl (fun m x => appendAt m (keyOf x) x) m0 l)))
              (flat_map snd (map_to_list m0) ++ l)%list) as Hgen.
  { induction l as [|x l IH]; intros m0; simpl foldl.
    - now rewrite List.app_nil_r.
    - rewrite IH, appendAt_elements, <- List.app_assoc. reflexivity. }
  rewrite Hgen, map_to_list_empty. reflexivity.
Qed.

Lemma flat_map_split {A B : Type} (f g h : A -> list B) (l : list A) :
  (forall a, In a l -> Permutation (f a) (g a ++ h a)%list) ->
  Permutation (flat_map f l) (flat_map g l ++ flat_map h l)%list.
Proof.
  induction l as [|a l IH]; intros Hf; simpl; [constructor|].
  rewrite (Hf a) by now left. rewrite IH by (intros; apply Hf; now right).
  rewrite <- !List.app_assoc. apply Permutation_app_head.
  rewrite !List.app_assoc. apply Permutation_app_tail, Permutation_app_comm.
Qed.

Lemma filter_split {A : Type} (p : A -> bool) (l : list A) :
  Permutation l (List.filter p l ++ List.filter (fun x => negb (p x)) l)%list.
Proof.
  induction l as [|x l IH]; simpl; [constructor|].
  destruct (p x); simpl.
  - now constructor.
  - now apply Permutation_cons_app.
Qed.

Lemma groups_lookup (l : list BackupInfo) (k : string) :
  foldl addToGroup ∅ l !! k
  = match List.filter (keyIs k) l with
    | [] => None
    | fl => Some fl
    end.
Proof.
  pose proof (grouping_lookup groupKey l ∅ k) as E. rewrite lookup_empty in E.
  exact E.
Qed.

Lemma groups_entry (l : list BackupInfo) (k : string) (g : list BackupInfo) :
  foldl addToGroup ∅ l !! k = Some g -> g = List.filter (keyIs k) l.
Proof.
  rewrite groups_lookup. destruct (List.filter (keyIs k) l); congruence.
Qed.


(** [List] never panics, and its records are decoded records. *)
Lemma List_decoded (c : S3Client) (contents : list Object) :
  exists backups, List c contents = Return backups /\ decoded backups.
Proof.
  unfold List.
  assert (forall acc, decoded acc ->
            exists backups,
              foldRun
                (fun (backups : list BackupInfo) (obj : Object) =>
                   let* backup := parseKey c (objKey obj) in
                   match backup with
                   | None => Return backups
                   | Some backup =>
                       Return (backups
                               ++ [{| Service := Service backup; Path := Path backup;
                                      Date := Date backup; Key := Key backup;
                                      Size := default (Size backup) (objSize obj);
                                      ETag := Trim (objETag obj) "034" |}])%list
                   end) acc contents = Return backups
              /\ decoded backups) as Hgen.
  { induction contents as [|obj contents IH]; intros acc Hacc; simpl.
    - now exists acc.
    - destruct (parseKey c (objKey obj)) as [|[b|]] eqn:E.
      + now apply parseKey_no_panic in E.
      + unfold bind. apply IH. unfold decoded in *.
        apply Forall_app. split; [exact Hacc|].
        constructor; [|constructor]. simpl.
        now apply (parseKey_service_lacks_slash c (objKey obj)).
      + unfold bind. now apply IH. }
  apply Hgen. constructor.
Qed.

(** X3 (the listing).  [List] never fails on a key: it returns, without
    panic, one record for each listed object whose key [parseKey] decodes,
    with the key, the size and the ETag of the object, and skips the other
    objects; every record has a service without ["/"]. *)
Theorem List_records (c : S3Client) (contents : list Object) :
  exists backups,
    List c contents = Return backups
    /\ decoded backups
    /\ (length backups <= length contents)%nat
    /\ (forall b, In b backups ->
          exists obj b0, In obj contents
            /\ parseKey c (objKey obj) = Return (Some b0)
            /\ Key b = objKey obj /\ Service b = Service b0
            /\ Path b = Path b0 /\ Date b = Date b0
            /\ Size b = default 0 (objSize obj)
            /\ ETag b = Trim (objETag obj) "034")
    /\ (forall obj b0, In obj contents ->
          parseKey c (objKey obj) = Return (Some b0) ->
          exists b, In b backups /\ Key b = objKey obj).
Proof.
  unfold List.
  induction contents as [|obj contents IH] using rev_ind.
  - exists []. split_and!; try (now constructor); simpl; try lia;
      intros; contradiction.
  - destruct IH as (backups & Hrun & Hdec & Hlen & Hfrom & Hto).
    set (body := fun (backups : list BackupInfo) (obj : Object) =>
                   let* backup := parseKey c (objKey obj) in
                   match backup with
                   | None => Return backups
                   | Some backup =>
                       Return (backups
                               ++ [{| Service := Service backup; Path := Path backup;
                                      Date := Date backup; Key := Key backup;
                                      Size := default (Size backup) (objSize obj);
                                      ETag := Trim (objETag obj) "034" |}])%list
                   end) in *.
    assert (forall l acc0 acc1 x,
              foldRun body acc0 l = Return acc1 ->
              foldRun body acc0 (l ++ [x]) = body acc1 x) as Hsnoc.
    { clear. intros l. induction l as [|y l IHl]; intros acc0 acc1 x Hl; simpl in *.
      - injection Hl as <-. now destruct (body acc0 x).
      - destruct (body acc0 y) as [|acc']; simpl in *; [discriminate|].
        now apply IHl. }
    rewrite (Hsnoc _ _ _ _ Hrun). unfold body at 1.
    destruct (parseKey_cases c (objKey obj))
      as [E | (b0 & parts & E & _ & _ & _ & _ & _ & _ & _ & Hkey & Hsize & _)];
      rewrite E; unfold bind.
    + exists backups. split_and!; try assumption; try reflexivity.
      * rewrite length_app. simpl. lia.
      * intros b Hb. destruct (Hfrom b Hb) as (o & b1 & Hin & Hrest).
        exists o, b1. split; [apply in_or_app; now left | exact Hrest].
      * intros o b1 Hin Hp. apply in_app_or in Hin as [Hin | [<- | []]].
        -- now apply (Hto o b1).
        -- congruence.
    + eexists. split; [reflexivity|]. split_and!.
      * unfold decoded in *. apply Forall_app. split; [exact Hdec|].
        constructor; [|constructor]. simpl.
        now apply (parseKey_service_lacks_slash c (objKey obj)).
      * rewrite !length_app. simpl. lia.
      * intros b Hb. apply in_app_or in Hb as [Hb | [<- | []]].
        -- destruct (Hfrom b Hb) as (o & b1 & Hin & Hrest).
           exists o, b1. split; [apply in_or_app; now left | exact Hrest].
        -- exists obj, b0. cbn [Service Path Date Key Size ETag].
           split_and!; try reflexivity; try assumption.
           ++ apply in_or_app. right. now left.
           ++ now rewrite Hsize.
      * intros o b1 Hin Hp. apply in_app_or in Hin as [Hin | [<- | []]].
        -- destruct (Hto o b1 Hin Hp) as (b & Hb & Hk).
           exists b. split; [apply in_or_app; now left | exact Hk].
        -- eexists. split; [apply in_or_app; right; now left|]. simpl. exact Hkey.
Qed.

Section WithRuntime.
Context `{GoRuntime}.

Lemma markGroup_acc (cutoff : Time) (K : Z) (acc : list BackupInfo)
  (e : string * list BackupInfo) :
  markGroup cutoff K acc e = (acc ++ markGroup cutoff K [] e)%list.
Proof. reflexivity. Qed.

Lemma markGroup_foldl (cutoff : Time) (K : Z) (acc : list BackupInfo)
  (es : list (string * list BackupInfo)) :
  foldl (markGroup cutoff K) acc es
  = (acc ++ flat_map (markGroup cutoff K []) es)%list.
Proof.
  revert acc. induction es as [|e es IH]; intros acc; simpl.
  - now rewrite List.app_nil_r.
  - rewrite IH, markGroup_acc. now rewrite <- List.app_assoc.
Qed.

(** What a group contributes is part of the group. *)
Lemma markGroup_subset (cutoff : Time) (K : Z) (e : string * list BackupInfo)
  (b : BackupInfo) :
  In b (markGroup cutoff K [] e) -> In b (snd e).
Proof.
  unfold markGroup. simpl. intros Hb. apply List.filter_In in Hb as [Hb _].
  apply (Permutation_in b (sortSlice_perm _ (fun a b => After (Date a) (Date b)) (snd e))).
  destruct (_ && _); [|exact Hb].
  rewrite <- (firstn_skipn (Z.to_nat K)). apply in_or_app. now right.
Qed.

(** The selection before the final sort: one contribution per group. *)
Lemma selection_perm (now : Time) (backups : list BackupInfo) (d K : Z) :
  Permutation (selectBackupsForDeletion now backups d K)
    (flat_map (markGroup (AddDate now 0 0 (- d)) K [])
       (map_to_list (foldl addToGroup ∅ backups))).
Proof.
  unfold selectBackupsForDeletion.
  destruct backups as [|b0 backups]; [reflexivity|].
  simpl Nat.eqb. cbv iota.
  rewrite sortSlice_perm, markGroup_foldl. simpl app.
  apply Permutation_flat_map, rangeOrder_perm.
Qed.

Lemma group_by_key (backups : list BackupInfo) (service path : string) :
  decoded backups -> lacks "/" service = true ->
  List.filter (keyIs (service +:+ "/" +:+ path)) backups
  = List.filter (inGroup service path) backups.
Proof.
  intros Hdec Hs. apply List.filter_ext_in. intros b Hb.
  unfold decoded in Hdec. rewrite List.Forall_forall in Hdec. unfold keyIs.
  apply groupKey_inGroup; [exact Hs | now apply Hdec].
Qed.


(** The part of the selection that belongs to one (service, path) is what
    the loop body selects from that group. *)
Lemma selection_of_group (now : Time) (backups : list BackupInfo) (d K : Z)
  (service path : string) :
  decoded backups -> lacks "/" service = true ->
  List.filter (inGroup service path) backups <> [] ->
  Permutation
    (List.filter (inGroup service path) (selectBackupsForDeletion now backups d K))
    (markGroup (AddDate now 0 0 (- d)) K []
       (service +:+ "/" +:+ path, List.filter (inGroup service path) backups)).
Proof.
  intros Hdec Hs Hne.
  set (k0 := service +:+ "/" +:+ path).
  set (g := List.filter (inGroup service path) backups) in *.
  set (groups := foldl addToGroup ∅ backups).
  set (f := markGroup (AddDate now 0 0 (- d)) K []).
  assert (groups !! k0 = Some g) as Hk0.
  { unfold groups, k0. rewrite groups_lookup, group_by_key by assumption.
    fold g. destruct g; [congruence | reflexivity]. }
  rewrite (filter_perm _ _ _ (selection_perm now backups d K)).
  fold groups f.
  rewrite (filter_perm _ _ _
             (Permutation_flat_map f (Permutation_sym (map_to_list_delete groups k0 g Hk0)))).
  simpl flat_map. rewrite List.filter_app.
  rewrite (filter_all _ (f (k0, g))).
  2:{ intros b Hb. apply markGroup_subset in Hb. simpl in Hb.
      now apply List.filter_In in Hb as [_ Hb]. }
  rewrite (filter_none _ (flat_map f _)); [now rewrite List.app_nil_r|].
  intros b Hb. apply in_flat_map in Hb as ([k g1] & He & Hb).
  apply list_elem_of_In, elem_of_map_to_list in He.
  apply lookup_delete_Some in He as [Hk Hg1].
  apply groups_entry in Hg1. apply markGroup_subset in Hb. simpl in Hb.
  rewrite Hg1 in Hb. apply List.filter_In in Hb as [Hin Hkey].
  unfold keyIs in Hkey. apply String.eqb_eq in Hkey.
  unfold decoded in Hdec. rewrite List.Forall_forall in Hdec.
  rewrite <- (groupKey_inGroup service path b Hs (Hdec b Hin)).
  apply String.eqb_neq. fold k0. congruence.
Qed.



Lemma sortSlice_singleton {A : Type} (less : A -> A -> bool) (a : A) :
  sortSlice less [a] = [a].
Proof. apply Permutation_singleton_r, sortSlice_perm. Qed.

Lemma rangeOrder_singleton {V : Type} (e : string * V) : rangeOrder [e] = [e].
Proof. apply Permutation_singleton_r, rangeOrder_perm. Qed.

Lemma sortSlice_pair {A : Type} (less : A -> A -> bool) (a b : A) :
  strictWeak less -> less b a = true -> sortSlice less [a; b] = [b; a].
Proof.
  intros Hsw Hba.
  pose proof (sortSlice_sorted _ less [a; b] Hsw) as HS.
  destruct (Permutation_length_2_inv (Permutation_sym (sortSlice_perm _ less [a; b])))
    as [E|E]; [|exact E].
  rewrite E in HS. inversion HS as [|? ? _ HF]; subst.
  inversion HF as [|? ? Hab _]; subst. congruence.
Qed.

(** X6 (a group no larger than [keepLatest]).  For decoded records, when
    the group of a (service, path) has at most [keepLatest] records, the
    selection from that group is all its records strictly older than [now]
    minus [olderThanDays] days: the floor only applies to larger groups. *)
Lemma selection_of_small_group (now : Time) (backups : list BackupInfo) (d K : Z)
  (service path : string) :
  decoded backups -> lacks "/" service = true ->
  List.filter (inGroup service path) backups <> [] ->
  Z.of_nat (length (List.filter (inGroup service path) backups)) <= K ->
  Permutation
    (List.filter (inGroup service path) (selectBackupsForDeletion now backups d K))
    (List.filter (expired now d) (List.filter (inGroup service path) backups)).
Proof.
  intros Hdec Hs Hne HK.
  rewrite (selection_of_group now backups d K service path Hdec Hs Hne).
  unfold markGroup. simpl.
  set (g := List.filter (inGroup service path) backups) in *.
  pose proof (sortSlice_perm _ (fun a b => After (Date a) (Date b)) g) as Hperm.
  rewrite (Permutation_length Hperm).
  replace (K <? Z.of_nat (length g)) with false
    by (symmetry; apply Z.ltb_ge; lia).
  rewrite andb_false_r.
  rewrite (List.filter_ext _ (expired now d) (Before_cutoff now d)).
  now apply filter_perm.
Qed.

End WithRuntime.

(** Without a floor ([keepLatest <= 0]) the selection is exactly the expired
    records. *)
Lemma selection_without_floor (R : GoRuntime) (now : Time)
  (backups : list BackupInfo) (d K : Z) (b : BackupInfo) :
  K <= 0 ->
  In b (selectBackupsForDeletion now backups d K)
  <-> In b backups /\ expired now d b = true.
Proof.
  intros HK.
  assert (forall e, markGroup (AddDate now 0 0 (- d)) K [] e
                    = List.filter (expired now d)
                        (sortSlice (fun a b => After (Date a) (Date b)) (snd e))) as Hmark.
  { intros e. unfold markGroup.
    replace (0 <? K) with false by (symmetry; apply Z.ltb_ge; lia).
    simpl. apply List.filter_ext, Before_cutoff. }
  pose proof (selection_perm now backups d K) as Hperm.
  split.
  - intros Hb. apply (Permutation_in b Hperm), in_flat_map in Hb as ([k g] & He & Hb).
    rewrite Hmark in Hb. apply List.filter_In in Hb as [Hb Hexp]. simpl in Hb.
    apply (Permutation_in b (sortSlice_perm _ _ g)) in Hb.
    apply list_elem_of_In, elem_of_map_to_list, groups_entry in He. subst g.
    apply List.filter_In in Hb as [Hb _]. now split.
  - intros [Hb Hexp]. apply (Permutation_in b (Permutation_sym Hperm)), in_flat_map.
    assert (In b (List.filter (keyIs (groupKey b)) backups)) as Hg
      by (apply List.filter_In; split; [exact Hb | apply String.eqb_refl]).
    pose proof (groups_lookup backups (groupKey b)) as Hk.
    destruct (List.filter (keyIs (groupKey b)) backups) as [|x g] eqn:Eg; [contradiction|].
    exists (groupKey b, x :: g). split.
    + now apply list_elem_of_In, elem_of_map_to_list.
    + rewrite Hmark. apply List.filter_In. split; [|exact Hexp]. simpl snd.
      now apply (Permutation_in b (Permutation_sym (sortSlice_perm _ _ (x :: g)))).
Qed.

(** X5 (convergence without a floor).  With [keepLatest <= 0], a second run
    of the selector, at the same time and on what is left once the keys
    selected by the first run are deleted, selects nothing. *)
Lemma retention_converges_without_floor (R : GoRuntime) (now : Time)
  (backups : list BackupInfo) (d K : Z) :
  K <= 0 ->
  selectBackupsForDeletion now
    (afterDeletion backups (selectBackupsForDeletion now backups d K)) d K = [].
Proof.
  intros HK.
  destruct (selectBackupsForDeletion now (afterDeletion backups _) d K) as [|b l] eqn:E;
    [reflexivity|].
  exfalso.
  assert (In b (selectBackupsForDeletion now
                  (afterDeletion backups (selectBackupsForDeletion now backups d K)) d K))
    as Hb by (rewrite E; now left).
  apply (selection_without_floor R) in Hb as [Hleft Hexp]; [|exact HK].
  unfold afterDeletion in Hleft. apply List.filter_In in Hleft as [Hin Hkey].
  apply negb_true_iff in Hkey.
  assert (existsb (String.eqb (Key b))
            (map Key (selectBackupsForDeletion now backups d K)) = true) as Hdel.
  { apply existsb_exists. exists (Key b). split; [|apply String.eqb_refl].
    apply in_map. apply (selection_without_floor R); [exact HK | now split]. }
  congruence.
Qed.

(** X4 (the selection is safe).  Whatever [keepLatest] is, the selection
    only rearranges part of the input: together with the records it leaves
    out it is the input, each record once, and every selected record is
    strictly older than [now] minus [olderThanDays] days. *)
Theorem selection_only_expired (R : GoRuntime) (now : Time)
  (backups : list BackupInfo) (d K : Z) :
  exists kept,
    Permutation backups (selectBackupsForDeletion now backups d K ++ kept)
    /\ Forall (fun b => unixSec (Date b) < unixSec now - 86400 * d)
         (selectBackupsForDeletion now backups d K).
Proof.
  set (cutoff := AddDate now 0 0 (- d)).
  set (entries := map_to_list (foldl addToGroup ∅ backups)).
  set (rest := fun e : string * list BackupInfo =>
                 let sorted := sortSlice (fun a b => After (Date a) (Date b)) (snd e) in
                 if (0 <? K) && (K <? Z.of_nat (length sorted))
                 then (take (Z.to_nat K) sorted
                       ++ List.filter (fun b => negb (Before (Date b) cutoff))
                            (drop (Z.to_nat K) sorted))%list
                 else List.filter (fun b => negb (Before (Date b) cutoff)) sorted).
  pose proof (selection_perm now backups d K) as Hsel. fold cutoff entries in Hsel.
  exists (flat_map rest entries). split.
  - rewrite Hsel.
    rewrite <- (flat_map_split snd (markGroup cutoff K []) rest entries).
    + symmetry. apply (grouping_partition groupKey backups).
    + intros e _. unfold markGroup, rest. simpl app.
      pose proof (sortSlice_perm _ (fun a b => After (Date a) (Date b)) (snd e)) as Hp.
      rewrite <- Hp at 1.
      set (sorted := sortSlice (fun a b => After (Date a) (Date b)) (snd e)).
      destruct ((0 <? K) && (K <? Z.of_nat (length sorted))).
      * rewrite <- (firstn_skipn (Z.to_nat K) sorted) at 1.
        rewrite (filter_split (fun b => Before (Date b) cutoff)
                   (drop (Z.to_nat K) sorted)) at 1.
        rewrite List.app_assoc.
        rewrite (Permutation_app_comm (take (Z.to_nat K) sorted)).
        now rewrite <- List.app_assoc.
      * apply filter_split.
  - apply List.Forall_forall. intros b Hb.
    apply (Permutation_in b Hsel), in_flat_map in Hb as (e & _ & Hb).
    unfold markGroup in Hb. simpl in Hb. apply List.filter_In in Hb as [_ Hb].
    unfold cutoff in Hb. rewrite Before_cutoff in Hb. unfold expired in Hb.
    now apply Z.ltb_lt in Hb.
Qed.

(** Witness of X5. *)
Lemma retention_converges_without_floor_witness :
  selectBackupsForDeletion (H := referenceRuntime) Sample.now
    (afterDeletion
       [Sample.record "web" "data" Sample.T0; Sample.record "web" "data" Sample.T1;
        Sample.record "web" "data" Sample.T3]
       (selectBackupsForDeletion (H := referenceRuntime) Sample.now
          [Sample.record "web" "data" Sample.T0; Sample.record "web" "data" Sample.T1;
           Sample.record "web" "data" Sample.T3] 30 0)) 30 0 = [].
Proof.
  apply (retention_converges_without_floor referenceRuntime Sample.now
           [Sample.record "web" "data" Sample.T0; Sample.record "web" "data" Sample.T1;
            Sample.record "web" "data" Sample.T3] 30 0).
  lia.
Defined.

(** Witness of X6: two expired records and one recent record of a group,
    [keepLatest = 5]. *)
Lemma selection_of_small_group_witness :
  Permutation
    (List.filter (inGroup "web" "data")
       (selectBackupsForDeletion (H := referenceRuntime) Sample.now
          [Sample.record "web" "data" Sample.T0; Sample.record "web" "data" Sample.T3;
           Sample.record "web" "data" Sample.T1] 30 5))
    (List.filter (expired Sample.now 30)
       (List.filter (inGroup "web" "data")
          [Sample.record "web" "data" Sample.T0; Sample.record "web" "data" Sample.T3;
           Sample.record "web" "data" Sample.T1])).
Proof.
  apply (selection_of_small_group (H := referenceRuntime) Sample.now
           [Sample.record "web" "data" Sample.T0; Sample.record "web" "data" Sample.T3;
            Sample.record "web" "data" Sample.T1] 30 5 "web" "data").
  - repeat constructor.
  - reflexivity.
  - discriminate.
  - vm_compute. discriminate.
Defined.

(** With [keepLatest = 1], a group of one expired record is selected. *)
Lemma single_expired_record_selected (R : GoRuntime) :
  selectBackupsForDeletion Sample.now [Sample.record "web" "data" Sample.T1] 30 1
  = [Sample.record "web" "data" Sample.T1].
Proof.
  unfold selectBackupsForDeletion. simpl Nat.eqb. cbv iota.
  replace (map_to_list (foldl addToGroup ∅ [Sample.record "web" "data" Sample.T1]))
    with [("web/data", [Sample.record "web" "data" Sample.T1])]
    by (vm_compute; reflexivity).
  rewrite rangeOrder_singleton. simpl foldl. unfold markGroup. simpl snd.
  rewrite sortSlice_singleton. simpl. apply sortSlice_singleton.
Qed.

(** C1 (a group no larger than [keepLatest] is not protected).  The claim
    says that nothing of such a group is selected; the code, whose floor is
    guarded by [len(pathBackups) > keepLatest], falls back to treating the
    whole group as candidates.  With [keepLatest = 1], the only record of
    (web, data), which is older than the cut-off, is selected. *)
Theorem keep_latest_floor_missed (R : GoRuntime) :
  let backups := [Sample.record "web" "data" Sample.T1] in
  (Z.of_nat (length (List.filter (inGroup "web" "data") backups)) <= 1)
  /\ selectBackupsForDeletion Sample.now backups 30 1 = backups.
Proof.
  split; [vm_compute; discriminate | apply single_expired_record_selected].
Qed.

(** C2 (retention does not converge).  Two expired records of one group and
    [keepLatest = 1]: the first run selects the older record and keeps the
    newer one; run again on what is left, the selector, which no longer
    protects a group of one, selects the record it had kept. *)
Theorem retention_second_run_selects (R : GoRuntime) :
  let r0 := Sample.record "web" "data" Sample.T0 in
  let r1 := Sample.record "web" "data" Sample.T1 in
  let first := selectBackupsForDeletion Sample.now [r0; r1] 30 1 in
  let left := afterDeletion [r0; r1] first in
  first = [r0] /\ left = [r1]
  /\ selectBackupsForDeletion Sample.now left 30 1 = [r1].
Proof.
  intros r0 r1.
  assert (selectBackupsForDeletion Sample.now [r0; r1] 30 1 = [r0]) as Hfirst.
  { unfold selectBackupsForDeletion. simpl Nat.eqb. cbv iota.
    replace (map_to_list (foldl addToGroup ∅ [r0; r1]))
      with [("web/data", [r0; r1])] by (vm_compute; reflexivity).
    rewrite rangeOrder_singleton. simpl foldl. unfold markGroup. simpl snd.
    rewrite (sortSlice_pair _ r0 r1 newestFirst_strictWeak) by reflexivity.
    simpl. apply sortSlice_singleton. }
  cbv zeta. rewrite Hfirst.
  assert (afterDeletion [r0; r1] [r0] = [r1]) as -> by reflexivity.
  split_and!; try reflexivity.
  apply single_expired_record_selected.
Qed.


Example retention_end_to_end :
  selectBackupsForDeletion (H := referenceRuntime) Sample.now
    [Sample.record "web" "data" Sample.T3;
     Sample.record "web" "data" Sample.T1;
     Sample.record "web" "data" Sample.T2] 30 1
  = [Sample.record "web" "data" Sample.T1].
Proof. vm_compute. reflexivity. Qed.

End SelectorFacts.

(* ===================================================================== *)
(** ** The restore selector *)
(* ===================================================================== *)

Section RestoreFacts.
Import GoStrings GoTime Storage Restore.

Lemma Format_date_length (t : Time) :
  validDate t -> len (Format t layoutDate) = 8%nat.
Proof.
  intros ((Hy & Hm & Hd & _) & _).
  assert (daysIn (month t) (year t) <= 31) as Hd31.
  { unfold daysIn. repeat match goal with |- context [if ?b then _ else _] => destruct b end; lia. }
  unfold Format, layoutDate, formatChunk.
  rewrite appendInt4 by lia. rewrite !appendInt2 by lia.
  repeat rewrite ?app_cons_s, ?app_nil_l_s. reflexivity.
Qed.

Lemma tryTimestamp_cases (token : string) :
  exists exact, tryTimestamp token = Return exact
    /\ (forall t, exact = Some t ->
                  validTime t /\ token = Format t layoutTimestamp).
Proof.
  unfold tryTimestamp. destruct (Nat.eqb (len token) 15) eqn:E15.
  - apply Nat.eqb_eq in E15.
    destruct (byteIndex_in_range token 8) as (c & -> & _); [lia|].
    unfold bind. destruct (Ascii.eqb c "-").
    + eexists. split; [reflexivity|]. intros t Ht. now apply Parse_inv_timestamp.
    + exists None. split; [reflexivity | discriminate].
  - exists None. split; [reflexivity | discriminate].
Qed.

(** [parseDate] never panics: it returns the error, or the time of a token
    in one of the two accepted forms. *)
Lemma parseDate_cases (token : string) :
  parseDate token = Return (Err (errInvalidDate token))
  \/ (exists t, parseDate token = Return (Ok (t, true))
                /\ validTime t /\ token = Format t layoutTimestamp)
  \/ (exists t, parseDate token = Return (Ok (t, false))
                /\ validDate t /\ token = Format t layoutDate).
Proof.
  unfold parseDate.
  destruct (tryTimestamp_cases token) as ([t|] & -> & Hex); unfold bind.
  - right. left. exists t. split; [reflexivity | now apply Hex].
  - unfold tryDate. destruct (Nat.eqb (len token) 8); [|now left].
    destruct (Parse layoutDate token) as [t|] eqn:E; [|now left].
    right. right. exists t. split; [reflexivity | now apply Parse_inv_date].
Qed.

Lemma parseDate_invalid (token : string) :
  ~ calendarDate8 token -> ~ canonicalTimestamp15 token ->
  parseDate token = Return (Err (errInvalidDate token)).
Proof.
  intros Hd Ht.
  destruct (parseDate_cases token) as [E | [(t & _ & Hv & E) | (t & _ & Hv & E)]].
  - exact E.
  - exfalso. apply Ht. now exists t.
  - exfalso. apply Hd. now exists t.
Qed.

Lemma calendarDate8_length (token : string) : calendarDate8 token -> len token = 8%nat.
Proof. intros (t & Hv & ->). now apply Format_date_length. Qed.

Lemma canonicalTimestamp15_length (token : string) :
  canonicalTimestamp15 token -> len token = 15%nat.
Proof. intros (t & Hv & ->). now apply Format_timestamp_shape. Qed.

Section WithRuntime.
Context `{GoRuntime}.

(** The date filter never panics and only drops records; without a date, or
    with a date that [parseDate] rejects, it drops none. *)
Lemma filterByDate_cases (backups : list BackupInfo) (opts : RestoreOptions.t) :
  exists log matching,
    filterByDate backups opts = Return (log, matching)
    /\ (forall b, In b matching -> In b backups)
    /\ (RestoreOptions.Date opts = ""
         \/ parseDate (RestoreOptions.Date opts)
            = Return (Err (errInvalidDate (RestoreOptions.Date opts))) ->
        matching = backups)
    /\ (RestoreOptions.Date opts <> "" ->
        parseDate (RestoreOptions.Date opts)
        = Return (Err (errInvalidDate (RestoreOptions.Date opts))) ->
        log = [warnInvalidDate (RestoreOptions.Date opts)]).
Proof.
  unfold filterByDate.
  destruct (String.eqb_spec (RestoreOptions.Date opts) "") as [E|E]; simpl negb; cbv iota.
  - exists [], backups. split_and!; [reflexivity | tauto | reflexivity | congruence].
  - destruct (parseDate_cases (RestoreOptions.Date opts))
      as [Ep | [(t & Ep & _) | (t & Ep & _)]]; rewrite Ep; unfold bind.
    + exists [warnInvalidDate (RestoreOptions.Date opts)], backups.
      split_and!; [reflexivity | tauto | reflexivity | reflexivity].
    + eexists [], _. split_and!; [reflexivity | | |].
      * intros b Hb. now apply List.filter_In in Hb as [Hb _].
      * intros [E'|E']; [contradiction | discriminate].
      * intros _ E'; discriminate.
    + eexists [], _. split_and!; [reflexivity | | |].
      * intros b Hb. now apply List.filter_In in Hb as [Hb _].
      * intros [E'|E']; [contradiction | discriminate].
      * intros _ E'; discriminate.
Qed.

(** The loop over the groups: each group contributes its newest record
    (latest, or no date given) or all its records. *)
Lemma foldRun_pickFromGroup (opts : RestoreOptions.t) (acc : list BackupInfo)
  (entries : list (string * list BackupInfo)) :
  (forall e, In e entries -> snd e <> []) ->
  foldRun (pickFromGroup opts) acc entries
  = Return
      (acc ++ flat_map
                (fun e =>
                   if RestoreOptions.Latest opts
                      || String.eqb (RestoreOptions.Date opts) ""
                   then take 1 (sortSlice (fun a b => After (Date a) (Date b)) (snd e))
                   else sortSlice (fun a b => After (Date a) (Date b)) (snd e))
                entries)%list.
Proof.
  revert acc. induction entries as [|e es IH]; intros acc Hne; simpl.
  - now rewrite List.app_nil_r.
  - unfold pickFromGroup at 1.
    destruct (RestoreOptions.Latest opts || String.eqb (RestoreOptions.Date opts) "").
    + pose proof (sortSlice_perm _ (fun a b => After (Date a) (Date b)) (snd e)) as Hp.
      destruct (sortSlice (fun a b => After (Date a) (Date b)) (snd e)) as [|r rest].
      * apply Permutation_nil in Hp. exfalso. apply (Hne e); [now left | exact Hp].
      * unfold index, bind. simpl.
        rewrite IH by (intros e' He'; apply Hne; now right).
        now rewrite <- List.app_assoc.
    + unfold bind. rewrite IH by (intros e' He'; apply Hne; now right).
      now rewrite <- List.app_assoc.
Qed.

(** What [selectBackups] returns for one path: nothing when no record of the
    path passes the date filter, else the newest such record, or all of
    them. *)
Lemma selection_on_path (backups : list BackupInfo) (opts : RestoreOptions.t)
  (log : list logEntry) (matching : list BackupInfo) (path : string) :
  filterByDate backups opts = Return (log, matching) ->
  exists selected,
    selectBackups backups opts = Return (log, selected)
    /\ Permutation (List.filter (onPath path) selected)
         (match List.filter (onPath path) matching with
          | [] => []
          | g =>
              if RestoreOptions.Latest opts
                 || String.eqb (RestoreOptions.Date opts) ""
              then take 1 (sortSlice (fun a b => After (Date a) (Date b)) g)
              else sortSlice (fun a b => After (Date a) (Date b)) g
          end).
Proof.
  intros Hf. unfold selectBackups. rewrite Hf. unfold bind at 1. cbn [fst snd].
  set (pick := fun e : string * list BackupInfo =>
                 if RestoreOptions.Latest opts
                    || String.eqb (RestoreOptions.Date opts) ""
                 then take 1 (sortSlice (fun a b => After (Date a) (Date b)) (snd e))
                 else sortSlice (fun a b => After (Date a) (Date b)) (snd e)).
  destruct matching as [|b0 matching']; [exists []; split; reflexivity|].
  set (matching := b0 :: matching') in *. simpl Nat.eqb. cbv iota.
  set (groups := foldl (fun m backup => appendAt m (Path backup) backup) ∅ matching).
  rewrite foldRun_pickFromGroup.
  2:{ intros [k g] He.
      apply (Permutation_in _ (rangeOrder_perm _ _)) in He.
      apply list_elem_of_In, elem_of_map_to_list in He.
      now apply grouping_entry in He as [_ He]. }
  unfold bind. eexists. split; [reflexivity|]. simpl app. fold pick.
  rewrite (filter_perm _ _ _ (Permutation_flat_map pick (rangeOrder_perm _ _))).
  pose proof (grouped_filter Path pick matching path) as HG.
  unfold onPath. etransitivity; [apply HG|].
  - intros e x Hx. unfold pick in Hx.
    pose proof (sortSlice_perm _ (fun a b => After (Date a) (Date b)) (snd e)) as Hp.
    apply (Permutation_in x Hp).
    destruct (_ || _); [|exact Hx].
    rewrite <- (firstn_skipn 1). apply in_or_app. now left.
  - destruct (List.filter _ matching); reflexivity.
Qed.

(** The newest record of a group heads the group once sorted. *)
Lemma newest_of_group (g : list BackupInfo) :
  g <> [] ->
  exists r, take 1 (sortSlice (fun a b => After (Date a) (Date b)) g) = [r]
    /\ In r g
    /\ (forall b, In b g -> unixSec (Date b) <= unixSec (Date r)).
Proof.
  intros Hne.
  pose proof (sortSlice_perm _ (fun a b => After (Date a) (Date b)) g) as Hp.
  pose proof (sortSlice_sorted _ _ g newestFirst_strictWeak) as HS.
  destruct (sortSlice (fun a b => After (Date a) (Date b)) g) as [|r rest].
  - apply Permutation_nil in Hp. contradiction.
  - exists r. split; [reflexivity|]. split.
    + apply (Permutation_in r Hp). now left.
    + intros b Hb. apply (Permutation_in b (Permutation_sym Hp)) in Hb.
      destruct Hb as [->|Hb]; [lia|].
      inversion HS as [|? ? _ HF]; subst. rewrite List.Forall_forall in HF.
      specialize (HF b Hb). unfold After in HF. now apply Z.ltb_ge in HF.
Qed.

(** C7, amended (latest restore, one record per path).  With the latest
    option or without a date, for every path of which at least one record
    passes the date filter, the selection holds exactly one record of that
    path, the most recent of those that pass; a path of which no record
    passes has none.  Every record passes when no date is given or when
    [parseDate] rejects the date. *)
Theorem restore_latest_per_path (backups : list BackupInfo)
  (opts : RestoreOptions.t) (path : string) :
  RestoreOptions.Latest opts = true \/ RestoreOptions.Date opts = "" ->
  exists log matching selected,
    filterByDate backups opts = Return (log, matching)
    /\ selectBackups backups opts = Return (log, selected)
    /\ (RestoreOptions.Date opts = ""
         \/ parseDate (RestoreOptions.Date opts)
            = Return (Err (errInvalidDate (RestoreOptions.Date opts))) ->
        matching = backups)
    /\ ((exists b, In b matching /\ Path b = path) ->
        exists r, List.filter (onPath path) selected = [r]
          /\ In r matching /\ Path r = path
          /\ (forall b, In b matching -> Path b = path ->
                        unixSec (Date b) <= unixSec (Date r)))
    /\ ((forall b, In b matching -> Path b <> path) ->
        List.filter (onPath path) selected = []).
Proof.
  intros Hlatest.
  assert (RestoreOptions.Latest opts
          || String.eqb (RestoreOptions.Date opts) "" = true) as Hcond.
  { destruct Hlatest as [-> | ->]; [reflexivity | apply orb_true_r]. }
  destruct (filterByDate_cases backups opts) as (log & matching & Hf & _ & Hall & _).
  destruct (selection_on_path backups opts log matching path Hf) as (selected & Hsel & Hperm).
  rewrite Hcond in Hperm.
  exists log, matching, selected. split_and!; try assumption.
  - intros (b & Hb & Hbp).
    assert (List.filter (onPath path) matching <> []) as Hne.
    { intros E. assert (In b (List.filter (onPath path) matching)) as Hin
        by (apply List.filter_In; split; [exact Hb | now apply String.eqb_eq]).
      now rewrite E in Hin. }
    destruct (newest_of_group _ Hne) as (r & Hr & Hin & Hmax).
    destruct (List.filter (onPath path) matching) as [|x g] eqn:Eg; [congruence|].
    cbv beta iota zeta in Hperm. rewrite Hr in Hperm. apply Permutation_singleton_r in Hperm.
    exists r. rewrite <- Eg in Hin, Hmax.
    apply List.filter_In in Hin as [Hin Hrp]. apply String.eqb_eq in Hrp.
    split_and!; try assumption.
    intros b' Hb' Hp'. apply Hmax, List.filter_In.
    split; [exact Hb' | now apply String.eqb_eq].
  - intros Hnone.
    rewrite (filter_none (onPath path) matching) in Hperm.
    + now apply Permutation_nil_r in Hperm.
    + intros b Hb. apply String.eqb_neq. now apply Hnone.
Qed.

(** C6, amended (a date token in neither accepted form).  [parseDate]
    returns an error for such a token, but the restore selection does not
    report it: for a non-empty token it logs one warning and ignores the
    date filter, so that the selection is drawn from all the listed records,
    every path with a listed record has a selected record, and
    [RestoreService] goes on to restore the selection. *)
Theorem invalid_date_token_ignored (token : string) (backups : list BackupInfo)
  (opts : RestoreOptions.t) :
  ~ calendarDate8 token -> ~ canonicalTimestamp15 token ->
  RestoreOptions.Date opts = token ->
  parseDate token = Return (Err (errInvalidDate token))
  /\ (token <> "" ->
      exists selected,
        selectBackups backups opts = Return ([warnInvalidDate token], selected)
        /\ (forall b, In b selected -> In b backups)
        /\ (forall b, In b backups ->
                      exists b', In b' selected /\ Path b' = Path b)
        /\ (RestoreOptions.FromLocal opts = "" -> backups <> [] ->
            RestoreService true (Ok backups) opts
            = Return ([warnInvalidDate token], Restoring selected))).
Proof.
  intros Hd Ht Htok.
  pose proof (parseDate_invalid token Hd Ht) as Hp.
  split; [exact Hp|]. intros Hne. subst token.
  destruct (filterByDate_cases backups opts) as (log & matching & Hf & _ & Hall & Hlog).
  rewrite (Hall (or_intror Hp)) in Hf. rewrite (Hlog Hne Hp) in Hf.
  clear Hall Hlog log matching.
  destruct (selection_on_path backups opts _ _ "" Hf) as (selected & Hsel & _).
  assert (forall b, In b backups -> exists b', In b' selected /\ Path b' = Path b) as Hcover.
  { intros b Hb.
    destruct (selection_on_path backups opts _ _ (Path b) Hf) as (selected' & Hsel' & Hperm).
    rewrite Hsel in Hsel'. injection Hsel' as <-.
    assert (In b (List.filter (onPath (Path b)) backups)) as Hin
      by (apply List.filter_In; split; [exact Hb | apply String.eqb_refl]).
    destruct (List.filter (onPath (Path b)) backups) as [|x g] eqn:Eg; [contradiction|].
    assert (exists b', In b' (List.filter (onPath (Path b)) selected)) as (b' & Hb').
    { destruct (newest_of_group (x :: g)) as (r & Hr & _); [discriminate|].
      pose proof (sortSlice_perm _ (fun a b => After (Date a) (Date b)) (x :: g)) as Hp'.
      cbv beta iota zeta in Hperm. destruct (_ || _).
      - rewrite Hr in Hperm. exists r.
        apply (Permutation_in r (Permutation_sym Hperm)). now left.
      - exists x. apply (Permutation_in x (Permutation_sym Hperm)).
        apply (Permutation_in x (Permutation_sym Hp')). now left. }
    apply List.filter_In in Hb' as [Hb' Hpb]. apply String.eqb_eq in Hpb.
    now exists b'. }
  exists selected. split_and!.
  - exact Hsel.
  - intros b Hb.
    destruct (selection_on_path backups opts _ _ (Path b) Hf) as (selected' & Hsel' & Hperm).
    rewrite Hsel in Hsel'. injection Hsel' as <-.
    assert (In b (List.filter (onPath (Path b)) selected)) as Hin
      by (apply List.filter_In; split; [exact Hb | apply String.eqb_refl]).
    apply (Permutation_in b Hperm) in Hin.
    destruct (List.filter (onPath (Path b)) backups) as [|x g] eqn:Eg; [contradiction|].
    cbv beta iota zeta in Hin.
    assert (In b (x :: g)) as Hg.
    { pose proof (sortSlice_perm _ (fun a b => After (Date a) (Date b)) (x :: g)) as Hp'.
      apply (Permutation_in b Hp').
      destruct (_ || _); [|exact Hin].
      rewrite <- (firstn_skipn 1). apply in_or_app. now left. }
    rewrite <- Eg in Hg. now apply List.filter_In in Hg as [Hg _].
  - exact Hcover.
  - intros Hlocal Hbk. unfold RestoreService. simpl negb. cbv iota.
    rewrite Hlocal. simpl negb. cbv iota.
    destruct backups as [|b0 backups']; [congruence|].
    simpl Nat.eqb. cbv iota. rewrite Hsel. unfold bind. cbn [fst snd].
    destruct (Hcover b0 (or_introl eq_refl)) as (b' & Hb' & _).
    destruct selected; [contradiction | reflexivity].
Qed.

End WithRuntime.

Lemma yesterday_not_date : ~ calendarDate8 "yesterday".
Proof. intros Hc. apply calendarDate8_length in Hc. discriminate Hc. Qed.

Lemma yesterday_not_timestamp : ~ canonicalTimestamp15 "yesterday".
Proof. intros Hc. apply canonicalTimestamp15_length in Hc. discriminate Hc. Qed.

(** Counterexample to C6 as stated: the token ["yesterday"] is in neither
    accepted form, yet [RestoreService] reports no error: it logs a warning
    and goes on to restore the listed record. *)
Lemma invalid_date_token_not_reported :
  let backups := [Sample.record "web" "data" Sample.T1] in
  let opts := options "yesterday" false in
  ~ calendarDate8 "yesterday" /\ ~ canonicalTimestamp15 "yesterday"
  /\ RestoreService (H := referenceRuntime) true (Ok backups) opts
     = Return ([warnInvalidDate "yesterday"], Restoring backups)
  /\ ~ (exists log e,
          RestoreService (H := referenceRuntime) true (Ok backups) opts
          = Return (log, Failed e)).
Proof.
  split; [exact yesterday_not_date|]. split; [exact yesterday_not_timestamp|].
  split; [vm_compute; reflexivity|].
  intros (log & e & He). vm_compute in He. discriminate He.
Qed.

(** Witness of C6, amended: the token ["yesterday"]. *)
Lemma invalid_date_token_ignored_witness :
  parseDate "yesterday" = Return (Err (errInvalidDate "yesterday"))
  /\ ("yesterday" <> "" ->
      exists selected,
        selectBackups (H := referenceRuntime)
          [Sample.record "web" "data" Sample.T1] (options "yesterday" false)
        = Return ([warnInvalidDate "yesterday"], selected)
        /\ (forall b, In b selected -> In b [Sample.record "web" "data" Sample.T1])
        /\ (forall b, In b [Sample.record "web" "data" Sample.T1] ->
                      exists b', In b' selected /\ Path b' = Path b)
        /\ (RestoreOptions.FromLocal (options "yesterday" false) = "" ->
            [Sample.record "web" "data" Sample.T1] <> [] ->
            RestoreService (H := referenceRuntime) true
              (Ok [Sample.record "web" "data" Sample.T1]) (options "yesterday" false)
            = Return ([warnInvalidDate "yesterday"], Restoring selected))).
Proof.
  apply (invalid_date_token_ignored (H := referenceRuntime) "yesterday"
           [Sample.record "web" "data" Sample.T1] (options "yesterday" false)).
  - exact yesterday_not_date.
  - exact yesterday_not_timestamp.
  - reflexivity.
Defined.

(** Counterexample to C7 as stated: with the latest option and the date
    ["20240520"], the path ["data"], whose only record is of 2024-01-01, gets
    no record at all. *)
Lemma latest_with_date_selects_nothing :
  let backups := [Sample.record "web" "data" Sample.T1] in
  let opts := options "20240520" true in
  (RestoreOptions.Latest opts = true \/ RestoreOptions.Date opts = "")
  /\ (exists b, In b backups /\ Path b = "data")
  /\ selectBackups (H := referenceRuntime) backups opts = Return ([], [])
  /\ ~ (exists log selected r,
          selectBackups (H := referenceRuntime) backups opts = Return (log, selected)
          /\ List.filter (onPath "data") selected = [r]).
Proof.
  split; [now left|]. split; [eexists; split; [now left | reflexivity]|].
  split; [vm_compute; reflexivity|].
  intros (log & selected & r & He & Hr). vm_compute in He.
  injection He as <- <-. discriminate Hr.
Qed.

(** Witness of C7, amended: the latest option, no date, three records of
    the path ["data"]. *)
Lemma restore_latest_per_path_witness :
  exists log matching selected,
    filterByDate [Sample.record "web" "data" Sample.T1;
                  Sample.record "web" "data" Sample.T3;
                  Sample.record "web" "data" Sample.T2] (options "" true)
    = Return (log, matching)
    /\ selectBackups (H := referenceRuntime)
         [Sample.record "web" "data" Sample.T1;
          Sample.record "web" "data" Sample.T3;
          Sample.record "web" "data" Sample.T2] (options "" true)
       = Return (log, selected)
    /\ (RestoreOptions.Date (options "" true) = ""
         \/ parseDate (RestoreOptions.Date (options "" true))
            = Return (Err (errInvalidDate (RestoreOptions.Date (options "" true)))) ->
        matching = [Sample.record "web" "data" Sample.T1;
                    Sample.record "web" "data" Sample.T3;
                    Sample.record "web" "data" Sample.T2])
    /\ ((exists b, In b matching /\ Path b = "data") ->
        exists r, List.filter (onPath "data") selected = [r]
          /\ In r matching /\ Path r = "data"
          /\ (forall b, In b matching -> Path b = "data" ->
                        unixSec (Date b) <= unixSec (Date r)))
    /\ ((forall b, In b matching -> Path b <> "data") ->
        List.filter (onPath "data") selected = []).
Proof.
  apply (restore_latest_per_path (H := referenceRuntime)
           [Sample.record "web" "data" Sample.T1;
            Sample.record "web" "data" Sample.T3;
            Sample.record "web" "data" Sample.T2] (options "" true) "data").
  left. reflexivity.
Defined.

Example restore_latest_example :
  exists selected,
    selectBackups (H := referenceRuntime)
      [Sample.record "web" "data" Sample.T1;
       Sample.record "web" "logs" Sample.T2;
       Sample.record "web" "data" Sample.T3] (options "" true)
    = Return ([], selected)
    /\ Permutation selected [Sample.record "web" "data" Sample.T3;
                             Sample.record "web" "logs" Sample.T2].
Proof. eexists. split; [vm_compute; reflexivity|]. apply perm_swap. Qed.

End RestoreFacts.

(* ===================================================================== *)
(** ** The include filter *)
(* ===================================================================== *)

Section ArchiveFacts.
Import GoStrings FilePath Archive.

Example Rel_examples :
  Rel "/data" "/data/uploads/x.png" = Some "uploads/x.png"
  /\ Rel "/data" "/data" = Some "."
  /\ Rel "/data/" "/data/./other//y.png" = Some "other/y.png"
  /\ Rel "/data/a" "/data/b/c" = Some "../b/c"
  /\ Rel "/data/a/b" "/data" = Some "../.."
  /\ Rel "/" "/x/y" = Some "x/y"
  /\ Rel "." "x/y" = Some "x/y"
  /\ Rel "data" "/data" = None
  /\ Rel "../a" "b" = None
  /\ Clean "a/b/../../.." = ".." /\ Clean "/../a//b/./c/.." = "/a/b" /\ Clean "" = ".".
Proof. repeat split; reflexivity. Qed.

Lemma HasPrefix_isPrefixOf (s p : string) :
  HasPrefix s p = true <-> isPrefixOf p s.
Proof.
  split.
  - intros Hp. exists (TrimPrefix s p). now apply HasPrefix_inv.
  - intros (rest & ->). apply HasPrefix_app.
Qed.

Lemma matchesAny_spec (relPath : string) (includeFolders : list string) :
  matchesAny relPath includeFolders = true
  <-> exists F, In F includeFolders
                /\ (isPrefixOf F relPath \/ isPrefixOf relPath F).
Proof.
  induction includeFolders as [|F rest IH]; simpl.
  - split; [discriminate | intros (F & [] & _)].
  - unfold FromSlash.
    destruct (HasPrefix relPath F) eqn:E1.
    { split; [|reflexivity]. intros _. exists F. split; [now left|].
      left. now apply HasPrefix_isPrefixOf. }
    destruct (HasPrefix F relPath) eqn:E2.
    { split; [|reflexivity]. intros _. exists F. split; [now left|].
      right. now apply HasPrefix_isPrefixOf. }
    rewrite IH. split.
    + intros (F' & Hin & HF'). exists F'. split; [now right | exact HF'].
    + intros (F' & [<-|Hin] & HF'); [|now exists F'].
      destruct HF' as [HF'|HF']; apply HasPrefix_isPrefixOf in HF'; congruence.
Qed.

(** C8 (include-filter rule).  For an entry whose path relative to the root
    is [R] and a non-empty list of include folders, [shouldInclude] holds
    exactly when [R] is ["."] or some include folder is a prefix of [R] or
    has [R] as a prefix.  With root [/data] and include folder [uploads]:
    [/data/uploads/x.png] is included, [/data/other/y.png] is not, the root
    is. *)
Theorem include_filter_rule (basePath path R : string)
  (includeFolders : list string) :
  includeFolders <> [] -> Rel basePath path = Some R ->
  (shouldInclude path basePath includeFolders = true
   <-> R = "." \/ exists F, In F includeFolders
                            /\ (isPrefixOf F R \/ isPrefixOf R F))
  /\ shouldInclude "/data/uploads/x.png" "/data" ["uploads"] = true
  /\ shouldInclude "/data/other/y.png" "/data" ["uploads"] = false
  /\ shouldInclude "/data" "/data" ["uploads"] = true.
Proof.
  intros _ HR. split; [|repeat split; reflexivity].
  unfold shouldInclude. rewrite HR.
  destruct (String.eqb_spec R ".") as [->|Hne].
  - split; [now left | reflexivity].
  - rewrite matchesAny_spec. split; [now right | now intros [?|?]].
Qed.

(** Witness of C8: a parent directory of an include folder. *)
Lemma include_filter_rule_witness :
  (shouldInclude "/data/uploads" "/data" ["uploads/images"; "themes"] = true
   <-> "uploads" = "."
       \/ exists F, In F ["uploads/images"; "themes"]
                    /\ (isPrefixOf F "uploads" \/ isPrefixOf "uploads" F))
  /\ shouldInclude "/data/uploads/x.png" "/data" ["uploads"] = true
  /\ shouldInclude "/data/other/y.png" "/data" ["uploads"] = false
  /\ shouldInclude "/data" "/data" ["uploads"] = true.
Proof.
  apply (include_filter_rule "/data" "/data/uploads" "uploads"
           ["uploads/images"; "themes"]).
  - discriminate.
  - reflexivity.
Defined.

End ArchiveFacts.

(* ===================================================================== *)
(** ** The backup of one path *)
(* ===================================================================== *)

Section BackupFacts.
Import GoStrings GoTime Storage Backup.

(** Every key that [Upload] puts an object under ends in [".tar.gz"]. *)
Lemma buildKey_suffix (c : S3Client) (service pathName timestamp : string) :
  HasSuffix (buildKey c service pathName timestamp) ".tar.gz" = true.
Proof.
  rewrite buildKey_shape.
  replace ((prefix c +:+ "/") +:+ service
             +:+ String "/" (pathName +:+ String "/" (timestamp +:+ ".tar.gz")))
    with (((prefix c +:+ "/") +:+ service
             +:+ String "/" (pathName +:+ String "/" timestamp)) +:+ ".tar.gz").
  - apply HasSuffix_app.
  - rewrite !app_assoc_s, !app_cons_s, !app_assoc_s, !app_cons_s. reflexivity.
Qed.

Ltac run_backup :=
  unfold backupPath, WithProgress.backupPath, WithProgress.uploadWithRetry,
    finish, withTempFile, call, checkSize, setArchiveSize, seekStart, Upload,
    andThen, emit, pure, failWith, uploadedKeys;
  cbn [trace seeks puts archiveSize fst snd app flat_map
       BackupResult.Error BackupResult.BackupInfo BackupResult.ArchiveSize].

(** C9 (minimum-size rejection).  When the archive written for a path is
    smaller than the configured minimum size, [backupPath], in both
    revisions, returns a result that carries an error and no backup record,
    and puts no object into the store; if the archive was created, the
    error is the one of the size check and the result holds the size. *)
Theorem minimum_size_rejection (cfg : BackupConfig) (c : S3Client) (w : World)
  (serviceName pathName pathLocation : string) (includeFolders : list string)
  (size : Z) :
  tempFileSize w = Some size -> 0 <= size < MinSize cfg ->
  forall run,
    run = backupPath cfg c w serviceName pathName pathLocation includeFolders
    \/ run = WithProgress.backupPath cfg c w serviceName pathName pathLocation
               includeFolders ->
    BackupResult.Error (fst run) <> None
    /\ BackupResult.BackupInfo (fst run) = None
    /\ uploadedKeys (snd run) = []
    /\ (statSource w = true -> mkdirAll w = true -> createTemp w = true ->
        createArchive w = true ->
        BackupResult.Error (fst run) = Some "archive size is below minimum threshold"
        /\ BackupResult.ArchiveSize (fst run) = size).
Proof.
  intros Hsize Hmin run Hrun.
  assert ((0 <? MinSize cfg) && (size <? MinSize cfg) = true) as Hcheck.
  { apply andb_true_iff. split; apply Z.ltb_lt; lia. }
  destruct Hrun as [-> | ->]; run_backup;
    destruct (statSource w), (mkdirAll w), (createTemp w), (createArchive w);
    cbn; rewrite ?Hsize; cbn; rewrite ?Hcheck; cbn;
    (split_and!; [discriminate | reflexivity | reflexivity | ]);
    intros; try discriminate; split; reflexivity.
Qed.

(** Witness of C9: an archive of 100 bytes against a minimum of 1024. *)
Lemma minimum_size_rejection_witness :
  let cfg := mkBackupConfig true false "" 1024 in
  let w := mkWorld true true true true (Some 100) (fun _ => true) Sample.now
             (fun _ => Some "etag") (Some 100) in
  let run := backupPath cfg Sample.client w "web" "data" "/var/www/html" [] in
  BackupResult.Error (fst run) <> None
  /\ BackupResult.BackupInfo (fst run) = None
  /\ uploadedKeys (snd run) = []
  /\ (statSource w = true -> mkdirAll w = true -> createTemp w = true ->
      createArchive w = true ->
      BackupResult.Error (fst run) = Some "archive size is below minimum threshold"
      /\ BackupResult.ArchiveSize (fst run) = 100).
Proof.
  intros cfg w run.
  apply (minimum_size_rejection cfg Sample.client w "web" "data" "/var/www/html" [] 100).
  - reflexivity.
  - simpl. lia.
  - left. reflexivity.
Defined.

Example backupPath_runs :
  let cfg := mkBackupConfig false false "" 1024 in
  let w := mkWorld true true true true (Some 2048) (fun _ => true) Sample.now
             (fun _ => Some "etag") (Some 2048) in
  backupPath cfg Sample.client w "web" "data" "/var/www/html" []
  = ({| BackupResult.Service := "web"; BackupResult.Path := "data";
        BackupResult.BackupInfo :=
          Some (mkBackupInfo "web" "data" Sample.now
                  "backups/web/data/20240601-120000.tar.gz" 2048 "etag");
        BackupResult.ArchiveSize := 2048;
        BackupResult.Error := None |},
     [evStat "/var/www/html"; evMkdirAll "/tmp"; evCreateTemp "/tmp";
      evCreateArchive false false "/var/www/html"; evStatTempFile; evSeek;
      evPutObject "backups/web/data/20240601-120000.tar.gz";
      evHeadObject "backups/web/data/20240601-120000.tar.gz";
      evCloseTempFile; evRemoveTempFile]).
Proof. vm_compute. reflexivity. Qed.

(** A key that [parseKey] decodes ends in [".tar.gz"]. *)
Lemma parseKey_suffix (c : S3Client) (key : string) (b : BackupInfo) :
  parseKey c key = Return (Some b) -> HasSuffix key ".tar.gz" = true.
Proof.
  intros Hp. destruct (parseKey_filename c key b Hp) as [_ Hf].
  destruct (Split_last_suffix key "/") as [pre Hpre].
  unfold trailingFilename in Hf. rewrite Hf in Hpre.
  rewrite Hpre, <- app_assoc_s. apply HasSuffix_app.
Qed.

(** The keys of a run are built by [buildKey]. *)
Lemma uploadedKeys_built (cfg : BackupConfig) (c : S3Client) (w : World)
  (serviceName pathName pathLocation : string) (includeFolders : list string)
  (key : string) :
  In key (uploadedKeys (snd (backupPath cfg c w serviceName pathName pathLocation
                               includeFolders)))
  \/ In key (uploadedKeys (snd (WithProgress.backupPath cfg c w serviceName pathName
                                  pathLocation includeFolders))) ->
  key = buildKey c serviceName pathName (Format (clock w) layoutTimestamp).
Proof.
  run_backup.
  destruct (statSource w), (mkdirAll w), (createTemp w), (createArchive w),
    (tempFileSize w) as [size|]; cbn;
    try (destruct ((0 <? MinSize cfg) && (size <? MinSize cfg))); cbn;
    destruct (seek w 0); cbn; destruct (putObject w 0); cbn;
    try (destruct (seek w 1); cbn); try (destruct (putObject w 1); cbn);
    intuition congruence.
Qed.

(** C10 (the archive suffix does not depend on compression).  Whatever the
    compression setting, every key under which [backupPath], in either
    revision, puts an object through [Upload] is built by [buildKey] and
    ends in [".tar.gz"]; and [parseKey] decodes only keys ending in
    [".tar.gz"], returning [nil] for every other key. *)
Theorem archive_suffix_fixed (compression preserveACLs : bool) (tempDir : string)
  (minSize : Z) (c : S3Client) (w : World)
  (serviceName pathName pathLocation : string) (includeFolders : list string) :
  let cfg := mkBackupConfig compression preserveACLs tempDir minSize in
  (forall key,
      In key (uploadedKeys (snd (backupPath cfg c w serviceName pathName
                                   pathLocation includeFolders)))
      \/ In key (uploadedKeys (snd (WithProgress.backupPath cfg c w serviceName
                                      pathName pathLocation includeFolders))) ->
      key = buildKey c serviceName pathName (Format (clock w) layoutTimestamp)
      /\ HasSuffix key ".tar.gz" = true)
  /\ (forall key b, parseKey c key = Return (Some b) ->
                    HasSuffix key ".tar.gz" = true)
  /\ (forall key, HasSuffix key ".tar.gz" = false -> parseKey c key = Return None).
Proof.
  intros cfg. split_and!.
  - intros key Hkey. apply uploadedKeys_built in Hkey. subst key.
    split; [reflexivity | apply buildKey_suffix].
  - intros key b. apply parseKey_suffix.
  - intros key Hs.
    destruct (parseKey_cases c key) as [E | (b & parts & E & _)]; [exact E|].
    apply parseKey_suffix in E. congruence.
Qed.

(** X2 (an upload can be listed back).  When the service name holds no
    ["/"], the clock shows a valid time and the store accepts the object,
    [Upload] returns a record for the service, the path name and the time of
    the clock, and [parseKey] decodes the key of that record into the same
    service, path name and time (size and ETag come from the listing). *)
Theorem upload_record_decodable (c : S3Client) (w : World)
  (service pathName etag : string) (s : State) :
  lacks "/" service = true -> validTime (clock w) ->
  putObject w (puts s) = Some etag ->
  exists info s',
    Upload c w service pathName s = (inl info, s')
    /\ Service info = service /\ Path info = pathName
    /\ Date info = clock w /\ ETag info = etag
    /\ uploadedKeys (trace s') = (uploadedKeys (trace s) ++ [Key info])%list
    /\ parseKey c (Key info)
       = Return (Some {| Service := service; Path := pathName;
                         Date := clock w; Key := Key info;
                         Size := 0; ETag := "" |}).
Proof.
  intros Hsvc Hv Hput. unfold Upload. rewrite Hput.
  rewrite Parse_Format_timestamp by exact Hv.
  eexists. eexists. split; [reflexivity|].
  cbn [Service Path Date ETag Key trace].
  split_and!; try reflexivity.
  - unfold uploadedKeys. rewrite !flat_map_app. simpl.
    now rewrite List.app_nil_r.
  - now apply decode_built_key.
Qed.

(** Witness of X2. *)
Lemma upload_record_decodable_witness :
  exists info s',
    Upload Sample.client
      (mkWorld true true true true (Some 2048) (fun _ => true) Sample.now
         (fun _ => Some "etag") (Some 2048))
      "web" "data" (mkState [] 0 0 0) = (inl info, s')
    /\ Service info = "web" /\ Path info = "data"
    /\ Date info = Sample.now /\ ETag info = "etag"
    /\ uploadedKeys (trace s') = (uploadedKeys [] ++ [Key info])%list
    /\ parseKey Sample.client (Key info)
       = Return (Some {| Service := "web"; Path := "data";
                         Date := Sample.now; Key := Key info;
                         Size := 0; ETag := "" |}).
Proof.
  apply (upload_record_decodable Sample.client
           (mkWorld true true true true (Some 2048) (fun _ => true) Sample.now
              (fun _ => Some "etag") (Some 2048))
           "web" "data" "etag" (mkState [] 0 0 0)).
  - reflexivity.
  - unfold validTime. simpl. vm_compute. intuition discriminate.
  - reflexivity.
Defined.

End BackupFacts.
